(** * SEBAK consensus core: a shallow embedding and its checked properties

    The Go packages [common], [errors], [storage], [transaction], [block],
    [node], [network], [httputils] and [runner] are embedded one module
    each, with the names the sources use.  Go's [error] results are [option Error]
    ([None] is [nil]); functions that write to the storage pass the storage
    explicitly and hand back the new one. *)

From Stdlib Require Import ZArith Lia String Ascii List.
From stdpp Require Import base gmap strings list fin_maps.
Import ListNotations.

Local Open Scope string_scope.
Local Open Scope Z_scope.

(** ** Package [errors] *)

Module errors.

(** The error values the embedded functions return.  [ErrorExternal]
    stands for an error produced outside the repository (the keypair
    parser, the JSON decoder). *)
Inductive Error : Type :=
| ErrorBlockAlreadyExists
| ErrorBlockNotFound
| ErrorOperationAmountUnderflow
| ErrorTransactionInvalidSequenceID
| ErrorTransactionExcessAbilityToPay
| ErrorBlockAccountDoesNotExists
| ErrorBlockAccountAlreadyExists
| ErrorStorageRecordAlreadyExists
| ErrorStorageRecordDoesNotExist
| ErrorExternal (msg : string).

End errors.
Export errors.

(** ** Package [common] *)

Module common.

(** Modelled from the spec: [common.Amount] (lib/common/amount.go is not
    among the sources): a non-negative integer whose addition can
    overflow, that is an unsigned 64-bit integer; the conversion
    [int64(o.Amount)] in operation_payment.go is between two integer
    types of that width.  Carried as [Z] in the range [0, 2^64). *)
Definition Amount : Type := Z.

Definition uint64_max : Z := 2 ^ 64 - 1.

Definition is_uint64 (x : Z) : Prop := 0 <= x <= uint64_max.

(** Go's conversion [int64(x)] of an unsigned 64-bit value: the same 64
    bits read in two's complement. *)
Definition int64 (x : Z) : Z :=
  let r := x mod 2 ^ 64 in
  if r <? 2 ^ 63 then r else r - 2 ^ 64.

Definition BaseFee : Amount := 10000.
Definition BaseReserve : Amount := 1000000.
Definition GenesisBlockConfirmedTime : string :=
  "2018-04-17T5:07:31.000000000Z".
Definition MaxTransactionsInBallot : Z := 1000.
Definition MaxOperationsInTransaction : Z := 1000.

(** Modelled from the spec: the message type constants of lib/common
    (not among the sources), with the wire names of section 6.
    [GetType] hands the type back as a string. *)
Definition BallotMessage : string := "ballot".
Definition TransactionMessage : string := "transaction".

Definition byte_at (x : Z) (i : Z) : ascii :=
  ascii_of_N (Z.to_N (Z.shiftr x (8 * i) mod 256)).

(** Modelled from the spec: [common.EncodeUint64ToByteSlice] (not among
    the sources), the big-endian height of the confirmed key in section
    6: the eight bytes of the value, most significant first. *)
Definition EncodeUint64ToByteSlice (x : Z) : string :=
  String (byte_at x 7) (String (byte_at x 6) (String (byte_at x 5)
  (String (byte_at x 4) (String (byte_at x 3) (String (byte_at x 2)
  (String (byte_at x 1) (String (byte_at x 0) EmptyString))))))).

End common.

(** ** Go's [fmt] verbs used by the key builders *)

Module fmt.

Definition digit (d : Z) : ascii := ascii_of_N (Z.to_N (48 + d)).

(** [%d] of an unsigned integer, as [fmt.fmtInteger] does it: the digits
    are written from the end of the buffer, least significant first,
    until the value is below ten.  [fuel] bounds the number of digits;
    twenty are enough for every 64-bit value. *)
Fixpoint fmtInteger (fuel : nat) (u : Z) (buf : string) : string :=
  match fuel with
  | O => buf
  | S fuel' =>
      if u <? 10 then String (digit u) buf
      else fmtInteger fuel' (u / 10) (String (digit (u mod 10)) buf)
  end.

Fixpoint zeros (n : nat) (s : string) : string :=
  match n with
  | O => s
  | S n' => String "0" (zeros n' s)
  end.

(** The zero flag with a width: zeros on the left up to [width]
    characters, nothing cut when the number is longer. *)
Definition Sprintf_0d (width : nat) (u : Z) : string :=
  let s := fmtInteger 20 u EmptyString in
  zeros (width - String.length s) s.

(** The [w] low decimal digits of [u], most significant first, in front of
    [tail]: what a zero-padded field of width [w] holds when the number
    fits. *)
Fixpoint fixed (w : nat) (u : Z) (tail : string) : string :=
  match w with
  | O => tail
  | S w' => fixed w' (u / 10) (String (digit (u mod 10)) tail)
  end.

End fmt.

(** ** Package [storage] *)

Module storage.

Section Backend.
Context {V : Type}.

(** Modelled from the spec: [storage.LevelDBBackend] (lib/storage is not
    among the sources), the key/value engine of spec section 6: a finite
    map from string keys to records, read in key order.  [Has] and [Get]
    read, [New] creates a record and refuses a key that is present.  Disk
    failures are not part of the model, so [Has] always hands back a nil
    error next to its answer. *)
Definition Has (st : gmap string V) (k : string) : bool * option Error :=
  (bool_decide (is_Some (st !! k)), None).

(** Modelled from the spec: [LevelDBBackend.New], which creates a record
    and answers with an error on a key that is taken. *)
Definition New (st : gmap string V) (k : string) (v : V)
  : gmap string V * option Error :=
  match Has st k with
  | (_, Some err) => (st, Some err)
  | (true, None) => (st, Some ErrorStorageRecordAlreadyExists)
  | (false, None) => (<[k := v]> st, None)
  end.

(** Modelled from the spec: [LevelDBBackend.Get]; [None] is the
    key-not-found error. *)
Definition Get (st : gmap string V) (k : string) : option V := st !! k.

(** Modelled from the spec: [storage.IterItem] (not among the sources),
    with the fields [block.go] reads. *)
Record IterItem : Type := { ItemN : Z; Key : string; Value : option V }.

(** [IterItem{}] *)
Definition IterItem0 : IterItem := {| ItemN := 0; Key := ""; Value := None |}.

(** Modelled from the spec: [storage.ListOptions] as
    [NewDefaultListOptions(reverse, cursor, limit)] makes it; the cursor
    is nil at the one call site and is left out. *)
Record ListOptions : Type := NewDefaultListOptions {
  Reverse : bool;
  Limit : nat;
}.

Fixpoint insert_by_key (x : string * V) (l : list (string * V))
  : list (string * V) :=
  match l with
  | [] => [x]
  | y :: l' =>
      if String.leb (fst x) (fst y) then x :: l else y :: insert_by_key x l'
  end.

Definition sort_by_key (l : list (string * V)) : list (string * V) :=
  foldr insert_by_key [] l.

Definition has_prefix (p : string) (kv : string * V) : bool :=
  String.prefix p (fst kv).

(** Modelled from the spec: [LevelDBBackend.GetIterator], as the records
    the iterator over [prefix] yields, in the order it yields them:
    ascending keys in byte order, descending when [Reverse], at most
    [Limit] of them when the limit is not zero. *)
Definition GetIterator (st : gmap string V) (prefix : string)
  (options : ListOptions) : list IterItem :=
  let sorted := sort_by_key (List.filter (has_prefix prefix) (map_to_list st)) in
  let ordered := if Reverse options then rev sorted else sorted in
  let limited :=
    match Limit options with
    | O => ordered
    | n => take n ordered
    end in
  List.map (fun kv => {| ItemN := 0; Key := fst kv; Value := Some (snd kv) |}) limited.

End Backend.

Arguments IterItem : clear implicits.

End storage.

(** ** Package [transaction] *)

Module transaction.

Record OperationBodyPayment : Type := NewOperationBodyPayment {
  Target : string;
  Amount : common.Amount;
}.

Section IsWellFormed.
(** [keypair.Parse] of the Stellar library, kept abstract: [None] when
    the string is a valid address. *)
Variable keypair_Parse : string -> option Error.

(** [OperationBodyPayment.IsWellFormed]; the network id argument is
    unused. *)
Definition OperationBodyPayment_IsWellFormed (o : OperationBodyPayment)
  (networkID : string) : option Error :=
  match keypair_Parse (Target o) with
  | Some err => Some err
  | None =>
      if common.int64 (Amount o) <? 1
      then Some ErrorOperationAmountUnderflow
      else None
  end.
End IsWellFormed.

(** Modelled from the spec: [OperationBodyCreateAccount] (not among the
    sources), as the tests and [MakeGenesisBlock] build it: target,
    amount and a linked address. *)
Record OperationBodyCreateAccount : Type := NewOperationBodyCreateAccount {
  ca_Target : string;
  ca_Amount : common.Amount;
  ca_Linked : string;
}.

(** Modelled from the spec: the operation and transaction types of
    lib/transaction (not among the sources), with the fields the tests and
    [MakeGenesisBlock] fill in (section 3). *)
Inductive OperationType : Type := OperationCreateAccount | OperationPayment.

Record OperationHeader : Type := { OpType : OperationType }.

Inductive OperationBody : Type :=
| BodyPayment (o : OperationBodyPayment)
| BodyCreateAccount (o : OperationBodyCreateAccount).

Definition TargetAddress (b : OperationBody) : string :=
  match b with
  | BodyPayment o => Target o
  | BodyCreateAccount o => ca_Target o
  end.

Definition GetAmount (b : OperationBody) : common.Amount :=
  match b with
  | BodyPayment o => Amount o
  | BodyCreateAccount o => ca_Amount o
  end.

Record Operation : Type := { H : OperationHeader; B : OperationBody }.

Record TransactionBody : Type := {
  Source : string;
  Fee : common.Amount;
  SequenceID : Z;
  Operations : list Operation;
}.

Record TransactionHeader : Type := {
  Created : string;
  Hash : string;
  Signature : string;
}.

Record Transaction : Type := {
  T : string;
  tx_H : TransactionHeader;
  tx_B : TransactionBody;
}.

Definition GetHash (tx : Transaction) : string := Hash (tx_H tx).

End transaction.

(** ** Package [block] *)

Module block.
Import transaction.

Definition maxBlockHeightStringLength : nat := 20.
Definition EventBlockPrefix : string := "bk-saved".

(** Modelled from the spec: the key prefixes of lib/common (not among the
    sources), as section 6 lists them. *)
Definition BlockPrefixHash : string := "block/hash/".
Definition BlockPrefixConfirmed : string := "block/confirmed/".
Definition BlockPrefixHeight : string := "block/height/".
Definition BlockAccountPrefixAddress : string := "account/".

(** Modelled from the spec: [round.Round] (not among the sources), the
    four fields of section 3. *)
Record Round : Type := {
  Number : Z;
  BlockHeight : Z;
  BlockHash : string;
  TotalTxs : Z;
}.

(** [round.Round{}] *)
Definition Round0 : Round :=
  {| Number := 0; BlockHeight := 0; BlockHash := ""; TotalTxs := 0 |}.

(** Modelled from the spec: the embedded [Header] of a block (not among
    the sources), after section 3. *)
Record Header : Type := {
  Height : Z;
  PrevBlockHash : string;
  TransactionsRoot : string;
  HeaderTotalTxs : Z;
}.

Definition Header0 : Header :=
  {| Height := 0; PrevBlockHash := ""; TransactionsRoot := "";
     HeaderTotalTxs := 0 |}.

Record Block : Type := {
  BlockHeader : Header;
  Transactions : list string;
  Hash : string;
  Confirmed : string;
  Proposer : string;
  BlockRound : Round;
}.

(** [Block{}] *)
Definition Block0 : Block :=
  {| BlockHeader := Header0; Transactions := []; Hash := ""; Confirmed := "";
     Proposer := ""; BlockRound := Round0 |}.

(** Modelled from the spec: [BlockAccount] (not among the sources), as
    the tests build it and section 3 describes it. *)
Record BlockAccount : Type := {
  Address : string;
  Balance : common.Amount;
  SequenceID : Z;
}.

(** Modelled from the spec: [BlockTransaction] (not among the sources),
    as the record [NewBlockTransactionFromTransaction] builds from its
    five arguments. *)
Record BlockTransaction : Type := NewBlockTransactionFromTransaction {
  bt_Block : string;
  bt_Height : Z;
  bt_Confirmed : string;
  bt_Transaction : Transaction;
  bt_Message : string;
}.

(** What a stored value decodes to.  The backend keeps JSON; a read into
    a variable of another type fails to decode. *)
Inductive Item : Type :=
| ItemBlock (b : Block)
| ItemString (s : string)
| ItemBlockAccount (a : BlockAccount)
| ItemBlockTransaction (bt : BlockTransaction).

(** [json.Unmarshal(item.Value, &hash)] with the error dropped: the
    string when the value is one, the empty string left in place
    otherwise. *)
Definition hash_of_item (v : option Item) : string :=
  match v with
  | Some (ItemString s) => s
  | _ => ""
  end.

(** The pieces [block.go] calls and the sources do not hold: hashing,
    signing, the header constructor and the block-transaction writer. *)
Class Collaborators : Type := {
  kp : string;
  MakeHashString : TransactionBody -> string;
  Sign : string -> string -> Transaction -> Transaction;
  Serialize : Transaction -> string;
  MustMakeObjectHashString : list string -> string;
  MakeBlockHash : Block -> string;
  NewBlockHeader : Round -> Z -> string -> Header;
  BlockTransaction_Save :
    BlockTransaction -> gmap string Item -> gmap string Item * option Error;
}.

Section Block.
Context `{Collaborators}.

Definition getTransactionRoot (txs : list string) : string :=
  MustMakeObjectHashString txs.

(** [NewBlock]: the hash is taken over the block with its hash field
    still empty. *)
Definition NewBlock (proposer : string) (round : Round)
  (transactions : list string) (confirmed : string) : Block :=
  let b :=
    {| BlockHeader :=
         NewBlockHeader round (Z.of_nat (length transactions))
           (getTransactionRoot transactions);
       Transactions := transactions;
       Hash := "";
       Confirmed := confirmed;
       Proposer := proposer;
       BlockRound := round |} in
  {| BlockHeader := BlockHeader b;
     Transactions := Transactions b;
     Hash := MakeBlockHash b;
     Confirmed := Confirmed b;
     Proposer := Proposer b;
     BlockRound := BlockRound b |}.

Definition GetBlockKey (hash : string) : string :=
  String.append BlockPrefixHash hash.

Definition GetBlockKeyPrefixConfirmed (confirmed : string) : string :=
  String.append BlockPrefixConfirmed (String.append confirmed "-").

(** [fmt.Sprintf("%s%020d-", common.BlockPrefixHeight, height)] *)
Definition GetBlockKeyPrefixHeight (height : Z) : string :=
  String.append BlockPrefixHeight
    (String.append (fmt.Sprintf_0d maxBlockHeightStringLength height) "-").

(** [NewBlockKeyConfirmed]; [uuid] is what [common.GetUniqueIDFromUUID]
    hands back at this call. *)
Definition NewBlockKeyConfirmed (b : Block) (uuid : string) : string :=
  String.append (GetBlockKeyPrefixConfirmed (Confirmed b))
    (String.append (common.EncodeUint64ToByteSlice (Height (BlockHeader b)))
       uuid).

(** [Block.Save].  The three writes follow one another and each failure
    returns at once with the storage as it is at that point.  The observer
    notification after the last write does not touch the storage and is
    left out. *)
Definition Save (b : Block) (uuid : string) (st : gmap string Item)
  : gmap string Item * option Error :=
  let key := GetBlockKey (Hash b) in
  match storage.Has st key with
  | (_, Some err) => (st, Some err)
  | (true, None) => (st, Some ErrorBlockAlreadyExists)
  | (false, None) =>
      match storage.New st key (ItemBlock b) with
      | (st1, Some err) => (st1, Some err)
      | (st1, None) =>
          match storage.New st1 (NewBlockKeyConfirmed b uuid)
                  (ItemString (Hash b)) with
          | (st2, Some err) => (st2, Some err)
          | (st2, None) =>
              storage.New st2 (GetBlockKeyPrefixHeight (Height (BlockHeader b)))
                (ItemString (Hash b))
          end
      end
  end.

(** [GetBlock]: the record under the block key, decoded as a block. *)
Definition GetBlock (st : gmap string Item) (hash : string)
  : Block * option Error :=
  match storage.Get st (GetBlockKey hash) with
  | Some (ItemBlock b) => (b, None)
  | Some _ => (Block0, Some (ErrorExternal "json: cannot unmarshal"))
  | None => (Block0, Some ErrorStorageRecordDoesNotExist)
  end.

Definition ExistsBlock (st : gmap string Item) (hash : string)
  : bool * option Error :=
  storage.Has st (GetBlockKey hash).

Definition ExistsBlockByHeight (st : gmap string Item) (height : Z)
  : bool * option Error :=
  storage.Has st (GetBlockKeyPrefixHeight height).

(** [MakeGenesisBlock] *)
Definition MakeGenesisBlock (st : gmap string Item) (account : BlockAccount)
  (networkID : string) (uuid : string)
  : gmap string Item * (Block * option Error) :=
  match ExistsBlockByHeight st 1 with
  | (true, _) => (st, (Block0, Some ErrorBlockAlreadyExists))
  | (false, Some err) => (st, (Block0, Some err))
  | (false, None) =>
      let opb :=
        NewOperationBodyCreateAccount (Address account) (Balance account) "" in
      let op :=
        {| H := {| OpType := OperationCreateAccount |};
           B := BodyCreateAccount opb |} in
      let txBody :=
        {| Source := Address account;
           Fee := 0;
           transaction.SequenceID := SequenceID account;
           Operations := [op] |} in
      let tx :=
        {| T := "transaction";
           tx_H := {| Created := common.GenesisBlockConfirmedTime;
                      transaction.Hash := MakeHashString txBody;
                      Signature := "" |};
           tx_B := txBody |} in
      let tx := Sign kp networkID tx in
      let transactions := [GetHash tx] in
      let blk :=
        NewBlock "" Round0 transactions common.GenesisBlockConfirmedTime in
      match Save blk uuid st with
      | (st1, Some err) => (st1, (blk, Some err))
      | (st1, None) =>
          let raw := Serialize tx in
          let bt :=
            NewBlockTransactionFromTransaction (Hash blk)
              (Height (BlockHeader blk)) (Confirmed blk) tx raw in
          match BlockTransaction_Save bt st1 with
          | (st2, err) => (st2, (blk, err))
          end
      end
  end.

(** The closure [LoadBlocksInsideIterator] returns, on the items the
    underlying iterator still has to yield: the block, [hasNext], the key,
    and the items left. *)
Definition LoadBlocksInsideIterator (st : gmap string Item)
  (items : list (storage.IterItem Item))
  : Block * bool * string * list (storage.IterItem Item) :=
  match items with
  | [] => (Block0, false, storage.Key (@storage.IterItem0 Item), [])
  | item :: rest =>
      let hash := hash_of_item (storage.Value item) in
      match GetBlock st hash with
      | (_, Some _) => (Block0, false, storage.Key item, rest)
      | (b, None) => (b, true, storage.Key item, rest)
      end
  end.

Definition GetBlocksByConfirmed (st : gmap string Item)
  (options : storage.ListOptions) : list (storage.IterItem Item) :=
  storage.GetIterator st BlockPrefixConfirmed options.

(** [GetLatestBlock]: one call of the iterator over the confirmed keys,
    newest first. *)
Definition GetLatestBlock (st : gmap string Item) : Block * option Error :=
  let items :=
    GetBlocksByConfirmed st (storage.NewDefaultListOptions true 1) in
  match LoadBlocksInsideIterator st items with
  | (b, _, _, _) =>
      if String.eqb (Hash b) "" then (b, Some ErrorBlockNotFound)
      else (b, None)
  end.

(** [GetBlockByHeight]: the hash under the height key, then the block
    under that hash.  A height record that is no string fails to
    decode. *)
Definition GetBlockByHeight (st : gmap string Item) (height : Z)
  : Block * option Error :=
  match storage.Get st (GetBlockKeyPrefixHeight height) with
  | None => (Block0, Some ErrorStorageRecordDoesNotExist)
  | Some (ItemString hash) => GetBlock st hash
  | Some _ => (Block0, Some (ErrorExternal "json: cannot unmarshal"))
  end.

(** No saved block: no record under the confirmed prefix names a stored
    block with a non-empty hash. *)
Definition no_saved_block (st : gmap string Item) : Prop :=
  forall (k : string) (v : Item) (b : Block),
    String.prefix BlockPrefixConfirmed k = true ->
    st !! k = Some v ->
    st !! GetBlockKey (hash_of_item (Some v)) = Some (ItemBlock b) ->
    Hash b = "".

(** Modelled from the spec: the account records of lib/block (not among
    the sources), kept under [account/<addr>] as section 6 says. *)
Definition GetBlockAccountKey (address : string) : string :=
  String.append BlockAccountPrefixAddress address.

(** Modelled from the spec: [GetBlockAccount]; [None] when there is no
    account under the key. *)
Definition GetBlockAccount (st : gmap string Item) (address : string)
  : option BlockAccount :=
  match storage.Get st (GetBlockAccountKey address) with
  | Some (ItemBlockAccount a) => Some a
  | _ => None
  end.

(** Modelled from the spec: whether an account exists. *)
Definition ExistsBlockAccount (st : gmap string Item) (address : string)
  : bool :=
  match GetBlockAccount st address with
  | Some _ => true
  | None => false
  end.

(** Modelled from the spec: [BlockAccount.Save], as the tests use it to
    put an account into a storage. *)
Definition BlockAccount_Save (a : BlockAccount) (st : gmap string Item)
  : gmap string Item :=
  <[GetBlockAccountKey (Address a) := ItemBlockAccount a]> st.

End Block.

End block.

(** ** Package [node] *)

Module node.

(** Modelled from the spec: the node states of section 3 (their
    declaration is not among the sources). *)
Inductive State : Type :=
| StateNONE | StateBOOTING | StateSYNC | StateCONSENSUS | StateTERMINATING.

(** Modelled from the spec: [common.Endpoint] (not among the sources),
    after section 3. *)
Record Endpoint : Type := {
  Scheme : string;
  Host : string;
  Port : Z;
  Path : string;
}.

(** Modelled from the spec: [Validator] (lib/node/validator.go is not
    among the sources), the remote peer of section 3: address, endpoint,
    alias. *)
Record Validator : Type := NewValidator {
  v_address : string;
  v_endpoint : Endpoint;
  v_alias : string;
}.

(** [keypair.Full], seen through its [Address] method. *)
Record Keypair : Type := { kp_Address : string }.

Record LocalNode : Type := {
  keypair : Keypair;
  state : State;
  alias : string;
  bindEndpoint : Endpoint;
  publishEndpoint : option Endpoint;
  validators : gmap string Validator;
}.

(** [MakeAlias]: the slices [address[:4]] and [address[l-8:l-4]] are out
    of range on an address shorter than eight bytes, where Go panics
    ([None]). *)
Definition MakeAlias (address : string) : option string :=
  let l := String.length address in
  if (l <? 8)%nat then None
  else Some (String.append (String.substring 0 4 address)
               (String.append "." (String.substring (l - 8) 4 address))).

(** [NewLocalNode]; its error result is always nil. *)
Definition NewLocalNode (kp : Keypair) (bindEndpoint : Endpoint)
  (alias : string) : option LocalNode :=
  let mk a :=
    {| keypair := kp; state := StateNONE; alias := a;
       bindEndpoint := bindEndpoint; publishEndpoint := None;
       validators := ∅ |} in
  if (String.length alias <? 1)%nat
  then mk <$> MakeAlias (kp_Address kp)
  else Some (mk alias).

Definition Address (n : LocalNode) : string := kp_Address (keypair n).

Definition with_state (s : State) (n : LocalNode) : LocalNode :=
  {| keypair := keypair n; state := s; alias := alias n;
     bindEndpoint := bindEndpoint n; publishEndpoint := publishEndpoint n;
     validators := validators n |}.

Definition SetBooting : LocalNode -> LocalNode := with_state StateBOOTING.
Definition SetSync : LocalNode -> LocalNode := with_state StateSYNC.
Definition SetConsensus : LocalNode -> LocalNode := with_state StateCONSENSUS.
Definition SetTerminating : LocalNode -> LocalNode :=
  with_state StateTERMINATING.

Definition SetPublishEndpoint (endpoint : Endpoint) (n : LocalNode)
  : LocalNode :=
  {| keypair := keypair n; state := state n; alias := alias n;
     bindEndpoint := bindEndpoint n; publishEndpoint := Some endpoint;
     validators := validators n |}.

Definition HasValidators (n : LocalNode) (address : string) : bool :=
  bool_decide (is_Some (validators n !! address)).

Definition GetValidators (n : LocalNode) : gmap string Validator :=
  validators n.

(** One turn of the loop of [AddValidators]. *)
Definition add_validator (n : LocalNode) (va : Validator) : LocalNode :=
  if String.eqb (Address n) (v_address va) then n
  else
    {| keypair := keypair n; state := state n; alias := alias n;
       bindEndpoint := bindEndpoint n; publishEndpoint := publishEndpoint n;
       validators := <[v_address va := va]> (validators n) |}.

(** [AddValidators]: the node after the call and the (nil) error. *)
Definition AddValidators (n : LocalNode) (validators : list Validator)
  : LocalNode * option Error :=
  (fold_left add_validator validators n, None).

Definition ConvertToValidator (n : LocalNode) : Validator :=
  NewValidator (Address n) (bindEndpoint n) (alias n).

(** [LocalNode.Equal], on the address of the other node. *)
Definition Equal (n : LocalNode) (address : string) : bool :=
  String.eqb (Address n) address.

(** The calls that change a [LocalNode]. *)
Inductive Call : Type :=
| CallSetBooting
| CallSetSync
| CallSetConsensus
| CallSetTerminating
| CallSetPublishEndpoint (endpoint : Endpoint)
| CallAddValidators (validators : list Validator).

Definition call (n : LocalNode) (c : Call) : LocalNode :=
  match c with
  | CallSetBooting => SetBooting n
  | CallSetSync => SetSync n
  | CallSetConsensus => SetConsensus n
  | CallSetTerminating => SetTerminating n
  | CallSetPublishEndpoint e => SetPublishEndpoint e n
  | CallAddValidators vs => fst (AddValidators n vs)
  end.

(** What one turn of the loop of [AddValidators] does to the entry of
    the registry under the address [a], in a node of address [self]. *)
Definition add_validator_at (self a : string) (entry : option Validator)
  (va : Validator) : option Validator :=
  if String.eqb self (v_address va) then entry
  else if String.eqb (v_address va) a then Some va
  else entry.

(** The invariant of the registry: the node's own address is not a key
    of it. *)
Definition no_self (n : LocalNode) : Prop :=
  validators n !! Address n = None.

End node.

(** ** Package [network] *)

Module network.
Import node.

(** Modelled from the spec: a [NetworkClient] (the interface is not
    among the sources), known by the endpoint it talks to. *)
Record NetworkClient : Type := { client_endpoint : Endpoint }.

(** Modelled from the spec: [common.Message] (the interface is not among
    the sources), seen through [GetType]. *)
Record Message : Type := { GetType : string; payload : string }.

Record ValidatorConnectionManager : Type := {
  localNode : LocalNode;
  validators : gmap string Validator;
  clients : gmap string NetworkClient;
  connected : gmap string bool;
}.

(** What one sending goroutine of [Broadcast] ends in.  A panic in any
    goroutine aborts the process. *)
Inductive Outcome : Type :=
| SendBallot (client : NetworkClient) (message : Message)
| SendMessage (client : NetworkClient) (message : Message)
| Panic (reason : string).

Definition is_panic (o : Outcome) : bool :=
  match o with
  | Panic _ => true
  | _ => false
  end.

Section Manager.
(** [Network.GetClient]; [None] is a nil client.  The network makes a
    client anew at every call: what is said about two calls takes a
    network function for each. *)
Variable GetClient : Endpoint -> option NetworkClient.

Definition NewValidatorConnectionManager (localNode : LocalNode)
  (validators : gmap string Validator) : ValidatorConnectionManager :=
  {| localNode := localNode; validators := validators;
     clients := ∅; connected := ∅ |}.

Definition with_clients (cl : gmap string NetworkClient)
  (c : ValidatorConnectionManager) : ValidatorConnectionManager :=
  {| localNode := localNode c; validators := validators c;
     clients := cl; connected := connected c |}.

(** [GetConnection]: the memoised client, or a fresh one for a known
    validator; nil for an address that is not known. *)
Definition GetConnection (c : ValidatorConnectionManager) (address : string)
  : ValidatorConnectionManager * option NetworkClient :=
  match clients c !! address with
  | Some client => (c, Some client)
  | None =>
      match validators c !! address with
      | None => (c, None)
      | Some validator =>
          match GetClient (v_endpoint validator) with
          | Some client =>
              (with_clients (<[address := client]> (clients c)) c, Some client)
          | None => (c, None)
          end
      end
  end.

Definition countConnectedUnlocked (c : ValidatorConnectionManager) : nat :=
  length (List.filter snd (map_to_list (connected c))).

(** [setConnected] without the call into the voting policy. *)
Definition setConnected (c : ValidatorConnectionManager) (v : Validator)
  (isConnected : bool) : ValidatorConnectionManager * bool :=
  let old := connected c !! v_address v in
  ({| localNode := localNode c; validators := validators c;
      clients := clients c;
      connected := <[v_address v := isConnected]> (connected c) |},
   match old with
   | None => true
   | Some o => negb (Bool.eqb o isConnected)
   end).

(** The body of the goroutine [Broadcast] starts for one connected
    address; [v] is [c.validators[addr]], nil when the address is not a
    key of the map. *)
Definition send (message : Message) (c : ValidatorConnectionManager)
  (v : option Validator) : ValidatorConnectionManager * Outcome :=
  match v with
  | None => (c, Panic "nil pointer dereference")
  | Some v =>
      match GetConnection c (v_address v) with
      | (c', client) =>
          if String.eqb (GetType message) common.BallotMessage then
            match client with
            | Some cl => (c', SendBallot cl message)
            | None => (c', Panic "nil pointer dereference")
            end
          else if String.eqb (GetType message) common.TransactionMessage then
            match client with
            | Some cl => (c', SendMessage cl message)
            | None => (c', Panic "nil pointer dereference")
            end
          else (c', Panic "invalid message")
      end
  end.

Fixpoint broadcast_loop (message : Message) (c : ValidatorConnectionManager)
  (entries : list (string * bool))
  : ValidatorConnectionManager * list Outcome :=
  match entries with
  | [] => (c, [])
  | (addr, isConnected) :: rest =>
      if isConnected then
        match send message c (validators c !! addr) with
        | (c', o) =>
            match broadcast_loop message c' rest with
            | (c'', os) => (c'', o :: os)
            end
        end
      else broadcast_loop message c rest
  end.

(** [Broadcast]: one goroutine per address marked connected.  The
    goroutines are run one after the other, in the order the map is
    ranged over; each takes the manager's lock for [GetConnection] only,
    and what it ends in does not depend on that order. *)
Definition Broadcast (c : ValidatorConnectionManager) (message : Message)
  : ValidatorConnectionManager * list Outcome :=
  broadcast_loop message c (map_to_list (connected c)).

(** The process aborts when some goroutine panics. *)
Definition aborts (r : ValidatorConnectionManager * list Outcome) : bool :=
  existsb is_panic (snd r).

(** What a goroutine that has its client ends in. *)
Definition dispatch (message : Message) (client : NetworkClient) : Outcome :=
  if String.eqb (GetType message) common.BallotMessage
  then SendBallot client message
  else if String.eqb (GetType message) common.TransactionMessage
  then SendMessage client message
  else Panic "invalid message".

(** A client can be had for [address]: one is memoised, or the address
    is a registered validator and the network hands out a client for its
    endpoint. *)
Definition available (c : ValidatorConnectionManager) (address : string)
  : Prop :=
  is_Some (clients c !! address)
  \/ exists v, validators c !! address = Some v
               /\ is_Some (GetClient (v_endpoint v)).

(** Every address marked connected is a registered validator for which a
    client can be had; [setConnected] is only called on the validators the
    manager was made with. *)
Definition connected_known (c : ValidatorConnectionManager) : Prop :=
  forall addr : string,
    connected c !! addr = Some true ->
    exists v, validators c !! addr = Some v /\ available c (v_address v).

End Manager.

(** [AllConnected]: the addresses marked connected, in the order the map
    is ranged over. *)
Definition AllConnected (c : ValidatorConnectionManager) : list string :=
  List.map fst (List.filter snd (map_to_list (connected c))).

Definition CountConnected (c : ValidatorConnectionManager) : nat :=
  countConnectedUnlocked c.

(** [AllValidators]: the registered addresses, then the node's own. *)
Definition AllValidators (c : ValidatorConnectionManager) : list string :=
  (List.map fst (map_to_list (validators c)) ++ [Address (localNode c)])%list.

Definition GetNodeAddress (c : ValidatorConnectionManager) : string :=
  Address (localNode c).

(** *** The HTTP/2 network of the same package *)

Definition RouterNameNode : string := "node".
Definition RouterNameAPI : string := "api".

(** [fmt.Sprintf("/%s", name)] *)
Definition UrlPathPrefixNode : string := String.append "/" RouterNameNode.
Definition UrlPathPrefixAPI : string := String.append "/" RouterNameAPI.

(** Go's [s[n:]] for [n] within the string. *)
Fixpoint string_drop (n : nat) (s : string) : string :=
  match n, s with
  | O, _ => s
  | S n', String _ s' => string_drop n' s'
  | S _, EmptyString => EmptyString
  end.

(** The router a handler is attached to. *)
Inductive Router : Type :=
| BaseRouter
| SubRouter (name : string).

(** [HTTP2Network.AddHandler]: the router the handler goes to and the
    path it is registered under there. *)
Definition AddHandler (pattern : string) : Router * string :=
  if String.prefix UrlPathPrefixNode pattern then
    (SubRouter RouterNameNode,
     string_drop (String.length UrlPathPrefixNode) pattern)
  else if String.prefix UrlPathPrefixAPI pattern then
    (SubRouter RouterNameAPI,
     string_drop (String.length UrlPathPrefixAPI) pattern)
  else (BaseRouter, pattern).

End network.

(** ** Package [httputils] *)

Module httputils.

Definition HttpProblemDefaultType : string := "about:blank".
Definition HttpProblemErrorTypePrefix : string :=
  "https://boscoin.io/sebak/error/".

Record problem : Type := {
  Type_ : string;
  Title : string;
  Status : Z;
  Detail : string;
  Instance : string;
}.

(** A Go [error] as [NewErrorProblem] tells them apart: an [*errors.Error]
    with its code and message, or any other error with its text. *)
Inductive error : Type :=
| SebakError (Code : Z) (Message : string)
| OtherError (text : string).

Definition NewProblem (problemType title : string) : problem :=
  {| Type_ := problemType; Title := title; Status := 0; Detail := "";
     Instance := "" |}.

Definition SetInstance (instance : string) (p : problem) : problem :=
  {| Type_ := Type_ p; Title := Title p; Status := Status p;
     Detail := Detail p; Instance := instance |}.

Definition SetStatus (status : Z) (p : problem) : problem :=
  {| Type_ := Type_ p; Title := Title p; Status := status;
     Detail := Detail p; Instance := Instance p |}.

Definition SetDetail (detail : string) (p : problem) : problem :=
  {| Type_ := Type_ p; Title := Title p; Status := Status p;
     Detail := detail; Instance := Instance p |}.

Section StatusText.
(** [http.StatusText] of the Go library. *)
Variable StatusText : Z -> string.

Definition NewStatusProblem (status : Z) : problem :=
  SetStatus status (NewProblem HttpProblemDefaultType (StatusText status)).

Definition NewDetailedStatusProblem (status : Z) (detail : string)
  : problem :=
  SetDetail detail (NewStatusProblem status).
End StatusText.

(** [NewErrorProblem]; the type of a repository error is the prefix and
    the code written with [%d]. *)
Definition NewErrorProblem (err : error) (status : Z) : problem :=
  let p :=
    match err with
    | SebakError code message =>
        NewProblem
          (String.append HttpProblemErrorTypePrefix
             (fmt.fmtInteger 20 code EmptyString))
          message
    | OtherError text => NewProblem HttpProblemDefaultType text
    end in
  SetStatus status p.

End httputils.

(** ** Package [runner] *)

Module runner.
Import transaction block.

(** Modelled from the spec: the check of one operation, item 4 of
    section 4.3 (lib/node/runner/checker_ballot_transaction.go is not
    among the sources, only its test is): the target exists for a payment
    and does not for a create-account. *)
Definition ValidateOp (st : gmap string Item) (op : Operation)
  : option Error :=
  match OpType (H op) with
  | OperationPayment =>
      if ExistsBlockAccount st (TargetAddress (B op)) then None
      else Some ErrorBlockAccountDoesNotExists
  | OperationCreateAccount =>
      if ExistsBlockAccount st (TargetAddress (B op))
      then Some ErrorBlockAccountAlreadyExists
      else None
  end.

(** Modelled from the spec: the operations are checked in their order
    and the first failure is the answer (item 4). *)
Fixpoint ValidateOps (st : gmap string Item) (ops : list Operation)
  : option Error :=
  match ops with
  | [] => None
  | op :: rest =>
      match ValidateOp st op with
      | Some err => Some err
      | None => ValidateOps st rest
      end
  end.

(** Modelled from the spec: the sum of all operation amounts (item
    5). *)
Fixpoint sum_amounts (ops : list Operation) : Z :=
  match ops with
  | [] => 0
  | op :: rest => GetAmount (B op) + sum_amounts rest
  end.

(** Modelled from the spec: the sum of the operation amounts plus
    [BaseFee] times the number of operations (item 5). *)
Definition TotalAmount (tx : Transaction) : Z :=
  sum_amounts (Operations (tx_B tx))
  + common.BaseFee * Z.of_nat (length (Operations (tx_B tx))).

(** Modelled from the spec: [ValidateTx]
    (lib/node/runner/checker_ballot_transaction.go is not among the
    sources, only its test is), after section 4.3, in its order: the
    source account exists; its sequence id equals the transaction's; every
    operation passes its target check; the amounts plus one base fee per
    operation are within the balance of the source.  The first failure
    decides the error and the storage is only read.  The well-formedness
    of item 1 is not checked here: the tests call [ValidateTx] on
    transactions that carry no signature and expect no error, and their
    header places those checks in [IsWellFormed]. *)
Definition ValidateTx (st : gmap string Item) (tx : Transaction)
  : option Error :=
  match GetBlockAccount st (Source (tx_B tx)) with
  | None => Some ErrorBlockAccountDoesNotExists
  | Some ba =>
      if negb (block.SequenceID ba =? transaction.SequenceID (tx_B tx))
      then Some ErrorTransactionInvalidSequenceID
      else
        match ValidateOps st (Operations (tx_B tx)) with
        | Some err => Some err
        | None =>
            if Balance ba <? TotalAmount tx
            then Some ErrorTransactionExcessAbilityToPay
            else None
        end
  end.

(** An operation passes its target check: the target of a payment is
    an account of the storage, the target of a create-account is not. *)
Definition target_ok (st : gmap string Item) (op : Operation) : Prop :=
  match OpType (H op) with
  | OperationPayment => ExistsBlockAccount st (TargetAddress (B op)) = true
  | OperationCreateAccount =>
      ExistsBlockAccount st (TargetAddress (B op)) = false
  end.

(** The target of an operation resolves: it is an account of the
    storage. *)
Definition target_resolves (st : gmap string Item) (op : Operation) : Prop :=
  ExistsBlockAccount st (TargetAddress (B op)) = true.

End runner.

(** ** Concrete nodes, storages and transactions

    The values the examples below run the embedded functions on. *)

Definition endpoint_a : node.Endpoint :=
  {| node.Scheme := "https"; node.Host := "localhost"; node.Port := 12345;
     node.Path := "" |}.

Definition kp_a : node.Keypair :=
  {| node.kp_Address :=
       "GDIRF4UWPACXPPI4GW7CMTACTCNDIKJEHZK44RITZB4TD3YUM6CCVNGJ" |}.

Definition validator_self : node.Validator :=
  node.NewValidator (node.kp_Address kp_a) endpoint_a "self".

Definition validator_b : node.Validator :=
  node.NewValidator
    "GBKQV2UP6KCMWDLHEWYOMXEOWAXMRRQ5FYKFP4WQJWTWT4VELTB5JXAG" endpoint_a "b".

Definition node_a : node.LocalNode :=
  {| node.keypair := kp_a; node.state := node.StateNONE;
     node.alias := "GDIR.M6CC"; node.bindEndpoint := endpoint_a;
     node.publishEndpoint := None; node.validators := ∅ |}.

(** The accounts of the tests of [ValidateTx]: one coin each, the source
    at sequence id 1. *)
Definition kps : string :=
  "GDIRF4UWPACXPPI4GW7CMTACTCNDIKJEHZK44RITZB4TD3YUM6CCVNGJ".
Definition kpt : string :=
  "GBKQV2UP6KCMWDLHEWYOMXEOWAXMRRQ5FYKFP4WQJWTWT4VELTB5JXAG".

Definition AmountPerCoin : Z := 10000000.

Definition bas : block.BlockAccount :=
  {| block.Address := kps; block.Balance := 1 * AmountPerCoin;
     block.SequenceID := 1 |}.

Definition bat : block.BlockAccount :=
  {| block.Address := kpt; block.Balance := 1 * AmountPerCoin;
     block.SequenceID := 0 |}.

Definition st_accounts : gmap string block.Item :=
  block.BlockAccount_Save bat (block.BlockAccount_Save bas ∅).

Definition payment (amount : Z) : transaction.Operation :=
  {| transaction.H := {| transaction.OpType := transaction.OperationPayment |};
     transaction.B :=
       transaction.BodyPayment (transaction.NewOperationBodyPayment kpt amount) |}.

Definition create_account (amount : Z) : transaction.Operation :=
  {| transaction.H :=
       {| transaction.OpType := transaction.OperationCreateAccount |};
     transaction.B :=
       transaction.BodyCreateAccount
         (transaction.NewOperationBodyCreateAccount kpt amount "") |}.

Definition tx_of (sequenceID : Z) (ops : list transaction.Operation)
  : transaction.Transaction :=
  {| transaction.T := "transaction";
     transaction.tx_H :=
       {| transaction.Created := "2018-04-17T5:07:31.000000000Z";
          transaction.Hash := "hash"; transaction.Signature := "" |};
     transaction.tx_B :=
       {| transaction.Source := kps; transaction.Fee := common.BaseFee;
          transaction.SequenceID := sequenceID;
          transaction.Operations := ops |} |}.

(** The source account as the other two tests save it, at sequence id
    0, and their storages. *)
Definition bas0 : block.BlockAccount :=
  {| block.Address := kps; block.Balance := 1 * AmountPerCoin;
     block.SequenceID := 0 |}.

Definition st_source : gmap string block.Item := block.BlockAccount_Save bas0 ∅.
Definition st_target : gmap string block.Item := block.BlockAccount_Save bat ∅.
Definition st_both : gmap string block.Item :=
  block.BlockAccount_Save bat (block.BlockAccount_Save bas0 ∅).

(** Stand-ins for the collaborators of [block.go]: hashes that only tag
    their input, a header one above the round's height, and a
    block-transaction record under a key of its own. *)
Definition collaborators_a : block.Collaborators :=
  {| block.kp := "SEED";
     block.MakeHashString := fun body => String.append "tx-" (transaction.Source body);
     block.Sign := fun _ _ tx => tx;
     block.Serialize := fun tx => transaction.GetHash tx;
     block.MustMakeObjectHashString := fun txs => String.concat "," txs;
     block.MakeBlockHash :=
       fun b => String.append "blk-" (block.TransactionsRoot (block.BlockHeader b));
     block.NewBlockHeader :=
       fun round totalTxs root =>
         {| block.Height := block.BlockHeight round + 1;
            block.PrevBlockHash := block.BlockHash round;
            block.TransactionsRoot := root;
            block.HeaderTotalTxs := block.TotalTxs round + totalTxs |};
     block.BlockTransaction_Save :=
       fun bt st =>
         storage.New st
           (String.append "bt/hash/" (transaction.GetHash (block.bt_Transaction bt)))
           (block.ItemBlockTransaction bt) |}.

(** Two blocks of height 1 with different hashes. *)
Definition block_of (hash : string) (height : Z) : block.Block :=
  {| block.BlockHeader :=
       {| block.Height := height; block.PrevBlockHash := "";
          block.TransactionsRoot := ""; block.HeaderTotalTxs := 0 |};
     block.Transactions := [];
     block.Hash := hash;
     block.Confirmed := "2018-04-17T5:07:31.000000000Z";
     block.Proposer := "";
     block.BlockRound := block.Round0 |}.

Definition st_h1 : gmap string block.Item :=
  fst (block.Save (block_of "h1" 1) "uuid-1" ∅).

(** A manager of [node_a] with the one validator [validator_b], before
    any liveness probe, with the validator marked disconnected, and with
    it marked connected; a network that has a client for every
    endpoint. *)
Definition GetClient_a (e : node.Endpoint) : option network.NetworkClient :=
  Some {| network.client_endpoint := e |}.

Definition manager_new : network.ValidatorConnectionManager :=
  network.NewValidatorConnectionManager node_a
    {[ node.v_address validator_b := validator_b ]}.

Definition manager_off : network.ValidatorConnectionManager :=
  fst (network.setConnected manager_new validator_b false).

Definition manager_on : network.ValidatorConnectionManager :=
  fst (network.setConnected manager_new validator_b true).

Definition message_of (type : string) : network.Message :=
  {| network.GetType := type; network.payload := "{}" |}.

(** * Properties *)

(** ** Payment operations *)

Section PaymentFacts.
Import common transaction.
Variable keypair_Parse : string -> option Error.

Lemma int64_small (a : Z) : 0 <= a < 2 ^ 63 -> int64 a = a.
Proof.
  intros Ha. unfold int64.
  rewrite Z.mod_small by lia.
  destruct (Z.ltb_spec a (2 ^ 63)); lia.
Qed.

Lemma int64_large (a : Z) : 2 ^ 63 <= a < 2 ^ 64 -> int64 a = a - 2 ^ 64.
Proof.
  intros Ha. unfold int64.
  rewrite Z.mod_small by lia.
  destruct (Z.ltb_spec a (2 ^ 63)); lia.
Qed.

(** Below 2^63 the check is the one the amount rule asks for: a payment
    is well formed exactly when its target parses and its amount is at
    least 1, and the only amount refused is 0. *)
Lemma OperationBodyPayment_IsWellFormed_below_2_63
  (o : OperationBodyPayment) (networkID : string) :
  0 <= Amount o < 2 ^ 63 ->
  (OperationBodyPayment_IsWellFormed keypair_Parse o networkID = None
   <-> keypair_Parse (Target o) = None /\ 1 <= Amount o)
  /\ (keypair_Parse (Target o) = None ->
      (OperationBodyPayment_IsWellFormed keypair_Parse o networkID
       = Some ErrorOperationAmountUnderflow <-> Amount o < 1)).
Proof.
  intros Ha. unfold OperationBodyPayment_IsWellFormed.
  rewrite (int64_small _ Ha).
  destruct (keypair_Parse (Target o)) as [e|];
    destruct (Z.ltb_spec (Amount o) 1); split; intros; try split;
    intros; try discriminate; try lia; intuition (try discriminate; try lia).
Qed.

(** C6 (as the code has it): an amount from 2^63 up, which is at least 1
    and within the 64 bits of an [Amount], is refused with
    [OperationAmountUnderflow]: [int64] of it is negative. *)
Theorem OperationBodyPayment_IsWellFormed_wraps
  (target networkID : string) (amount : Z) :
  keypair_Parse target = None ->
  2 ^ 63 <= amount < 2 ^ 64 ->
  1 <= amount
  /\ is_uint64 amount
  /\ OperationBodyPayment_IsWellFormed keypair_Parse
       (NewOperationBodyPayment target amount) networkID
     = Some ErrorOperationAmountUnderflow.
Proof.
  intros Hp Ha. unfold is_uint64, uint64_max.
  repeat split; try lia.
  unfold OperationBodyPayment_IsWellFormed. simpl. rewrite Hp.
  rewrite (int64_large _ Ha).
  destruct (Z.ltb_spec (amount - 2 ^ 64) 1); [reflexivity | lia].
Qed.

End PaymentFacts.

Lemma OperationBodyPayment_IsWellFormed_wraps_witness :
  1 <= 9223372036854775808
  /\ common.is_uint64 9223372036854775808
  /\ transaction.OperationBodyPayment_IsWellFormed (fun _ => None)
       (transaction.NewOperationBodyPayment "GTARGET" 9223372036854775808) ""
     = Some ErrorOperationAmountUnderflow.
Proof.
  apply (OperationBodyPayment_IsWellFormed_wraps (fun _ => None)
           "GTARGET" "" 9223372036854775808).
  - reflexivity.
  - lia.
Defined.

(** ** Height keys *)

Section HeightKeys.
Import fmt block.

Lemma zeros_String (n : nat) (s : string) :
  zeros n (String "0" s) = String "0" (zeros n s).
Proof. induction n as [|n IH]; simpl; [reflexivity | now rewrite IH]. Qed.

Lemma fixed_zero (w : nat) (tail : string) : fixed w 0 tail = zeros w tail.
Proof.
  revert tail. induction w as [|w IH]; intros tail; simpl; [reflexivity|].
  change (0 / 10) with 0. change (digit (0 mod 10)) with "0"%char.
  rewrite IH. apply zeros_String.
Qed.

Lemma fixed_append (w : nat) (u : Z) (tail s : string) :
  String.append (fixed w u tail) s = fixed w u (String.append tail s).
Proof.
  revert u tail. induction w as [|w IH]; intros u tail; simpl; [reflexivity|].
  now rewrite IH.
Qed.

Lemma fmtInteger_S (f : nat) (u : Z) (buf : string) :
  fmtInteger (S f) u buf
  = if u <? 10 then String (digit u) buf
    else fmtInteger f (u / 10) (String (digit (u mod 10)) buf).
Proof. reflexivity. Qed.

Lemma fixed_S (w : nat) (u : Z) (tail : string) :
  fixed (S w) u tail = fixed w (u / 10) (String (digit (u mod 10)) tail).
Proof. reflexivity. Qed.

(** With enough fuel [fmtInteger] writes between one and [fuel] digits,
    and zero filling them gives the fixed-width digits. *)
Lemma fmtInteger_fixed (f : nat) (u : Z) (buf : string) :
  0 <= u < 10 ^ Z.of_nat (S f) ->
  exists d : nat,
    (1 <= d <= S f)%nat
    /\ String.length (fmtInteger (S f) u buf) = (d + String.length buf)%nat
    /\ zeros (S f - d) (fmtInteger (S f) u buf) = fixed (S f) u buf.
Proof.
  revert u buf. induction f as [|f IH]; intros u buf Hu.
  - exists 1%nat. change (10 ^ Z.of_nat 1) with 10 in Hu.
    simpl. destruct (Z.ltb_spec u 10); [|lia].
    rewrite Z.mod_small by lia. repeat split; lia.
  - rewrite (fmtInteger_S (S f)).
    destruct (Z.ltb_spec u 10) as [Hlt|Hge].
    + exists 1%nat. repeat split; try (simpl; lia).
      replace (S (S f) - 1)%nat with (S f) by lia.
      rewrite (fixed_S (S f)). rewrite (Z.div_small u 10) by lia.
      rewrite (Z.mod_small u 10) by lia.
      now rewrite fixed_zero.
    + assert (Hq : 0 <= u / 10 < 10 ^ Z.of_nat (S f)).
      { split; [apply Z.div_pos; lia|].
        apply Z.div_lt_upper_bound; [lia|].
        replace (Z.of_nat (S (S f))) with (Z.succ (Z.of_nat (S f))) in Hu by lia.
        rewrite Z.pow_succ_r in Hu by lia. lia. }
      destruct (IH (u / 10) (String (digit (u mod 10)) buf) Hq)
        as (d & Hd & Hlen & Hz).
      exists (S d). repeat split; try lia.
      * rewrite Hlen. simpl. lia.
      * replace (S (S f) - S d)%nat with (S f - d)%nat by lia.
        rewrite Hz. now rewrite (fixed_S (S f)).
Qed.

Lemma Sprintf_0d_fixed (u : Z) :
  0 <= u < 10 ^ 20 -> Sprintf_0d 20 u = fixed 20 u "".
Proof.
  intros Hu. unfold Sprintf_0d.
  destruct (fmtInteger_fixed 19 u "" Hu) as (d & Hd & Hlen & Hz).
  cbv zeta. rewrite Hlen. simpl String.length.
  replace (d + 0)%nat with d by lia. exact Hz.
Qed.

Lemma digit_compare (a b : Z) :
  0 <= a < 10 -> 0 <= b < 10 ->
  Ascii.compare (digit a) (digit b) = (a ?= b).
Proof.
  intros Ha Hb. unfold Ascii.compare, digit.
  rewrite !N_ascii_embedding by lia.
  rewrite Z2N.inj_compare by lia.
  destruct (Z.compare_spec (48 + a) (48 + b));
    destruct (Z.compare_spec a b); try reflexivity; lia.
Qed.

Lemma compare_by_digits (u1 u2 : Z) (X : comparison) :
  0 <= u1 -> 0 <= u2 ->
  match u1 / 10 ?= u2 / 10 with
  | Eq => match u1 mod 10 ?= u2 mod 10 with Eq => X | c => c end
  | c => c
  end
  = match u1 ?= u2 with Eq => X | c => c end.
Proof.
  intros H1 H2.
  pose proof (Z.div_mod u1 10 ltac:(lia)).
  pose proof (Z.div_mod u2 10 ltac:(lia)).
  pose proof (Z.mod_pos_bound u1 10 ltac:(lia)).
  pose proof (Z.mod_pos_bound u2 10 ltac:(lia)).
  destruct (Z.compare_spec (u1 / 10) (u2 / 10));
    destruct (Z.compare_spec (u1 mod 10) (u2 mod 10));
    destruct (Z.compare_spec u1 u2); try reflexivity; lia.
Qed.

(** Fixed-width digit strings compare as the numbers they write. *)
Lemma fixed_compare (w : nat) (u1 u2 : Z) (t1 t2 : string) :
  0 <= u1 < 10 ^ Z.of_nat w -> 0 <= u2 < 10 ^ Z.of_nat w ->
  String.compare (fixed w u1 t1) (fixed w u2 t2)
  = match u1 ?= u2 with Eq => String.compare t1 t2 | c => c end.
Proof.
  revert u1 u2 t1 t2. induction w as [|w IH]; intros u1 u2 t1 t2 H1 H2.
  - change (10 ^ Z.of_nat 0) with 1 in *.
    assert (u1 = 0) by lia. assert (u2 = 0) by lia. subst. reflexivity.
  - assert (Hp : 10 ^ Z.of_nat (S w) = 10 * 10 ^ Z.of_nat w).
    { replace (Z.of_nat (S w)) with (Z.succ (Z.of_nat w)) by lia.
      apply Z.pow_succ_r. lia. }
    rewrite Hp in H1, H2.
    rewrite !fixed_S. rewrite IH.
    + cbn [String.compare].
      rewrite digit_compare by (apply Z.mod_pos_bound; lia).
      apply compare_by_digits; lia.
    + split; [apply Z.div_pos; lia | apply Z.div_lt_upper_bound; lia].
    + split; [apply Z.div_pos; lia | apply Z.div_lt_upper_bound; lia].
Qed.

Lemma compare_append_same (p a b : string) :
  String.compare (String.append p a) (String.append p b) = String.compare a b.
Proof.
  induction p as [|c p IH]; simpl; [reflexivity|].
  unfold Ascii.compare. rewrite N.compare_refl. exact IH.
Qed.

(** C8: the height keys of two heights below 10^20 are in the order of
    the heights: the smaller height has the key that is strictly less in
    the byte-wise order of strings. *)
Theorem GetBlockKeyPrefixHeight_lt (h1 h2 : Z) :
  0 <= h1 -> h1 < h2 -> h2 < 10 ^ 20 ->
  String.compare (GetBlockKeyPrefixHeight h1) (GetBlockKeyPrefixHeight h2) = Lt.
Proof.
  intros H0 H12 H2. unfold GetBlockKeyPrefixHeight.
  rewrite compare_append_same.
  unfold maxBlockHeightStringLength.
  rewrite !Sprintf_0d_fixed by lia.
  rewrite !fixed_append.
  rewrite fixed_compare by (change (10 ^ Z.of_nat 20) with (10 ^ 20); lia).
  destruct (Z.compare_spec h1 h2); try reflexivity; lia.
Qed.

End HeightKeys.

Lemma GetBlockKeyPrefixHeight_lt_witness :
  String.compare (block.GetBlockKeyPrefixHeight 9)
    (block.GetBlockKeyPrefixHeight 10) = Lt.
Proof.
  apply (GetBlockKeyPrefixHeight_lt 9 10); lia.
Defined.

(** The keys are the prefix, twenty digits and a dash. *)
Example GetBlockKeyPrefixHeight_1 :
  block.GetBlockKeyPrefixHeight 1 = "block/height/00000000000000000001-".
Proof. reflexivity. Qed.

Example GetBlockKeyPrefixHeight_max :
  block.GetBlockKeyPrefixHeight 18446744073709551615
  = "block/height/18446744073709551615-".
Proof. reflexivity. Qed.

(** ** The validator registry of the local node *)

Section LocalNodeFacts.
Import node.

Lemma add_validator_Address (n : LocalNode) (va : Validator) :
  Address (add_validator n va) = Address n.
Proof.
  unfold add_validator. destruct (String.eqb _ _); reflexivity.
Qed.

Lemma add_validator_no_self (n : LocalNode) (va : Validator) :
  no_self n -> no_self (add_validator n va).
Proof.
  unfold no_self. intros Hn. rewrite add_validator_Address.
  unfold add_validator.
  destruct (String.eqb (Address n) (v_address va)) eqn:E; [exact Hn|].
  apply String.eqb_neq in E. simpl.
  rewrite lookup_insert_ne by congruence. exact Hn.
Qed.

Lemma AddValidators_no_self (vs : list Validator) (n : LocalNode) :
  no_self n ->
  no_self (fst (AddValidators n vs))
  /\ Address (fst (AddValidators n vs)) = Address n.
Proof.
  unfold AddValidators. simpl. revert n.
  induction vs as [|va vs IH]; intros n Hn; simpl; [auto|].
  destruct (IH (add_validator n va) (add_validator_no_self n va Hn))
    as [H1 H2].
  split; [exact H1 | now rewrite H2, add_validator_Address].
Qed.

Lemma call_no_self (n : LocalNode) (c : Call) :
  no_self n -> no_self (call n c) /\ Address (call n c) = Address n.
Proof.
  intros Hn. destruct c; try (split; [exact Hn | reflexivity]).
  apply AddValidators_no_self, Hn.
Qed.

Lemma calls_no_self (cs : list Call) (n : LocalNode) :
  no_self n ->
  no_self (fold_left call cs n) /\ Address (fold_left call cs n) = Address n.
Proof.
  revert n. induction cs as [|c cs IH]; intros n Hn; simpl; [auto|].
  destruct (call_no_self n c Hn) as [H1 H2].
  destruct (IH (call n c) H1) as [H3 H4].
  split; [exact H3 | congruence].
Qed.

Lemma NewLocalNode_no_self (kp : Keypair) (e : Endpoint) (a : string)
  (n : LocalNode) :
  NewLocalNode kp e a = Some n -> no_self n /\ Address n = kp_Address kp.
Proof.
  unfold NewLocalNode, no_self. intros Hn.
  destruct (String.length a <? 1)%nat.
  - destruct (MakeAlias (kp_Address kp)); simpl in Hn; [|discriminate].
    injection Hn as <-. split; [apply lookup_empty | reflexivity].
  - injection Hn as <-. split; [apply lookup_empty | reflexivity].
Qed.

(** C9: a node made by [NewLocalNode] never has its own address in its
    registry, whatever calls follow: [AddValidators] with any validators,
    one with the node's own address among them, and the state and
    endpoint setters.  [HasValidators] of the node's address stays
    false. *)
Theorem LocalNode_never_own_validator (kp : Keypair) (e : Endpoint)
  (a : string) (n : LocalNode) (cs : list Call) :
  NewLocalNode kp e a = Some n ->
  HasValidators (fold_left call cs n) (Address (fold_left call cs n)) = false
  /\ HasValidators (fold_left call cs n) (Address n) = false.
Proof.
  intros Hn. destruct (NewLocalNode_no_self kp e a n Hn) as [H0 _].
  destruct (calls_no_self cs n H0) as [H1 H2].
  unfold HasValidators. rewrite H2. unfold no_self in H1. rewrite H2 in H1.
  rewrite H1. split; apply bool_decide_eq_false; intros [x Hx]; discriminate.
Qed.

End LocalNodeFacts.

Lemma LocalNode_never_own_validator_witness :
  let cs :=
    [node.CallAddValidators [validator_self; validator_b];
     node.CallSetConsensus;
     node.CallAddValidators [validator_self]] in
  node.HasValidators (fold_left node.call cs node_a)
    (node.Address (fold_left node.call cs node_a)) = false
  /\ node.HasValidators (fold_left node.call cs node_a)
       (node.Address node_a) = false.
Proof.
  intros cs.
  apply (LocalNode_never_own_validator kp_a endpoint_a "" node_a cs).
  reflexivity.
Defined.

(** The other validator of the calls above is registered. *)
Example AddValidators_registers_other :
  node.HasValidators
    (fst (node.AddValidators node_a [validator_self; validator_b]))
    (node.v_address validator_b) = true.
Proof. vm_compute. reflexivity. Qed.

(** ** The transaction validator *)

Section ValidateTxFacts.
Import common transaction block runner.

Lemma ValidateOp_error (st : gmap string Item) (op : Operation) (e : Error) :
  ValidateOp st op = Some e ->
  e = ErrorBlockAccountDoesNotExists \/ e = ErrorBlockAccountAlreadyExists.
Proof.
  unfold ValidateOp.
  destruct (OpType (H op)); destruct (ExistsBlockAccount st _);
    intros E; inversion E; auto.
Qed.

Lemma ValidateOps_error (st : gmap string Item) (ops : list Operation)
  (e : Error) :
  ValidateOps st ops = Some e ->
  e = ErrorBlockAccountDoesNotExists \/ e = ErrorBlockAccountAlreadyExists.
Proof.
  induction ops as [|op ops IH]; simpl; [discriminate|].
  destruct (ValidateOp st op) eqn:E.
  - intros E'. inversion E'. subst. eapply ValidateOp_error, E.
  - exact IH.
Qed.

Lemma ValidateOp_None (st : gmap string Item) (op : Operation) :
  ValidateOp st op = None <-> target_ok st op.
Proof.
  unfold ValidateOp, target_ok.
  destruct (OpType (H op)); destruct (ExistsBlockAccount st _);
    split; intros E; try discriminate; reflexivity.
Qed.

Lemma ValidateOps_None (st : gmap string Item) (ops : list Operation) :
  ValidateOps st ops = None <-> Forall (target_ok st) ops.
Proof.
  induction ops as [|op ops IH]; simpl.
  - split; [constructor | reflexivity].
  - destruct (ValidateOp st op) eqn:E.
    + split; [discriminate|]. intros HF. inversion HF as [|? ? Hop _]. subst.
      apply ValidateOp_None in Hop. congruence.
    + rewrite IH. split.
      * intros HF. constructor; [now apply ValidateOp_None | exact HF].
      * intros HF. now inversion HF.
Qed.

(** The operations in front of the first failing one pass, and that one
    decides the error. *)
Lemma ValidateOps_first_failure (st : gmap string Item)
  (pre post : list Operation) (op : Operation) (e : Error) :
  Forall (target_ok st) pre ->
  ValidateOp st op = Some e ->
  ValidateOps st (pre ++ op :: post)%list = Some e.
Proof.
  intros Hpre Hop. induction Hpre as [|p pre Hp _ IH]; simpl.
  - now rewrite Hop.
  - apply ValidateOp_None in Hp. now rewrite Hp.
Qed.

(** C1: when the source account exists, [ValidateTx] answers
    [TransactionInvalidSequenceID] exactly when the sequence id of the
    transaction is not the one of the source account, be it smaller or
    larger; with the equal value the answer is another one. *)
Theorem ValidateTx_InvalidSequenceID_iff (st : gmap string Item)
  (tx : Transaction) (ba : BlockAccount) :
  GetBlockAccount st (Source (tx_B tx)) = Some ba ->
  (ValidateTx st tx = Some ErrorTransactionInvalidSequenceID
   <-> transaction.SequenceID (tx_B tx) <> block.SequenceID ba).
Proof.
  intros Hsrc. unfold ValidateTx. rewrite Hsrc.
  destruct (Z.eqb_spec (block.SequenceID ba) (transaction.SequenceID (tx_B tx)))
    as [Heq|Hne]; simpl.
  - split; [|congruence].
    destruct (ValidateOps st (Operations (tx_B tx))) as [e|] eqn:E.
    + intros E'. inversion E'. subst.
      destruct (ValidateOps_error _ _ _ E); discriminate.
    + destruct (Balance ba <? TotalAmount tx); discriminate.
  - split; [congruence | reflexivity].
Qed.

(** C2 (amended): when the source account exists, its sequence id is the
    transaction's and every operation passes its target check,
    [ValidateTx] answers [TransactionExcessAbilityToPay] exactly when the
    amounts plus one [BaseFee] per operation exceed the balance of the
    source, and accepts the transaction when they do not, the equal sum
    included. *)
Theorem ValidateTx_ExcessAbilityToPay_iff (st : gmap string Item)
  (tx : Transaction) (ba : BlockAccount) :
  GetBlockAccount st (Source (tx_B tx)) = Some ba ->
  transaction.SequenceID (tx_B tx) = block.SequenceID ba ->
  Forall (target_ok st) (Operations (tx_B tx)) ->
  (ValidateTx st tx = Some ErrorTransactionExcessAbilityToPay
   <-> Balance ba
       < sum_amounts (Operations (tx_B tx))
         + BaseFee * Z.of_nat (length (Operations (tx_B tx))))
  /\ (sum_amounts (Operations (tx_B tx))
      + BaseFee * Z.of_nat (length (Operations (tx_B tx))) <= Balance ba
      -> ValidateTx st tx = None).
Proof.
  intros Hsrc Hseq Hops. unfold ValidateTx. rewrite Hsrc, Hseq.
  rewrite Z.eqb_refl. simpl.
  apply ValidateOps_None in Hops. rewrite Hops.
  fold (TotalAmount tx).
  destruct (Z.ltb_spec (Balance ba) (TotalAmount tx)); split;
    try split; intros; try discriminate; try reflexivity; lia.
Qed.

(** C3 (amended): without the source account [ValidateTx] answers
    [BlockAccountDoesNotExists].  With the source account at the
    sequence id of the transaction, the first operation that fails its
    target check decides: [BlockAccountDoesNotExists] for a payment to a
    missing account, [BlockAccountAlreadyExists] for a create-account of
    a present one.  When every operation passes and the total is within
    the balance, there is no error. *)
Theorem ValidateTx_accounts (st : gmap string Item) (tx : Transaction) :
  (GetBlockAccount st (Source (tx_B tx)) = None ->
   ValidateTx st tx = Some ErrorBlockAccountDoesNotExists)
  /\ (forall ba pre op post,
        GetBlockAccount st (Source (tx_B tx)) = Some ba ->
        transaction.SequenceID (tx_B tx) = block.SequenceID ba ->
        Operations (tx_B tx) = (pre ++ op :: post)%list ->
        Forall (target_ok st) pre ->
        (OpType (H op) = OperationPayment ->
         ExistsBlockAccount st (TargetAddress (B op)) = false ->
         ValidateTx st tx = Some ErrorBlockAccountDoesNotExists)
        /\ (OpType (H op) = OperationCreateAccount ->
            ExistsBlockAccount st (TargetAddress (B op)) = true ->
            ValidateTx st tx = Some ErrorBlockAccountAlreadyExists))
  /\ (forall ba,
        GetBlockAccount st (Source (tx_B tx)) = Some ba ->
        transaction.SequenceID (tx_B tx) = block.SequenceID ba ->
        Forall (target_ok st) (Operations (tx_B tx)) ->
        TotalAmount tx <= Balance ba ->
        ValidateTx st tx = None).
Proof.
  unfold ValidateTx. split; [|split].
  - intros ->. reflexivity.
  - intros ba pre op post Hsrc Hseq Hops Hpre.
    rewrite Hsrc, Hseq, Z.eqb_refl, Hops. simpl. split; intros Ht He.
    + rewrite (ValidateOps_first_failure st pre post op
                 ErrorBlockAccountDoesNotExists); auto.
      unfold ValidateOp. now rewrite Ht, He.
    + rewrite (ValidateOps_first_failure st pre post op
                 ErrorBlockAccountAlreadyExists); auto.
      unfold ValidateOp. now rewrite Ht, He.
  - intros ba Hsrc Hseq Hops Htot. rewrite Hsrc, Hseq, Z.eqb_refl. simpl.
    apply ValidateOps_None in Hops. rewrite Hops.
    destruct (Z.ltb_spec (Balance ba) (TotalAmount tx)); [lia | reflexivity].
Qed.

End ValidateTxFacts.

Lemma ValidateTx_InvalidSequenceID_iff_witness :
  runner.ValidateTx st_accounts (tx_of 0 [payment 10000])
  = Some ErrorTransactionInvalidSequenceID
  <-> 0 <> 1.
Proof.
  apply (ValidateTx_InvalidSequenceID_iff st_accounts
           (tx_of 0 [payment 10000]) bas).
  vm_compute. reflexivity.
Defined.

(** [TestValidateTxWrongSequenceID] *)
Example TestValidateTxWrongSequenceID :
  runner.ValidateTx st_accounts (tx_of 0 [payment 10000])
  = Some ErrorTransactionInvalidSequenceID
  /\ runner.ValidateTx st_accounts (tx_of 2 [payment 10000])
     = Some ErrorTransactionInvalidSequenceID
  /\ runner.ValidateTx st_accounts (tx_of 1 [payment 10000]) = None.
Proof. vm_compute. auto. Qed.

(** [TestValidateTxOverBalance] *)
Example TestValidateTxOverBalance :
  runner.ValidateTx st_accounts (tx_of 1 [payment 10000000])
  = Some ErrorTransactionExcessAbilityToPay
  /\ runner.ValidateTx st_accounts (tx_of 1 [payment (10000000 - 10000)])
     = None
  /\ runner.ValidateTx st_accounts
       (tx_of 1 [payment 2500000; payment 2500000; payment 2500000;
                 payment 2500000])
     = Some ErrorTransactionExcessAbilityToPay
  /\ runner.ValidateTx st_accounts
       (tx_of 1 [payment (2500000 - 4 * 10000); payment 2500000;
                 payment 2500000; payment 2500000])
     = None.
Proof. vm_compute. auto. Qed.

(** [TestValidateTxPaymentMissingBlockAccount] *)
Example TestValidateTxPaymentMissingBlockAccount :
  runner.ValidateTx ∅ (tx_of 0 [payment 10000])
  = Some ErrorBlockAccountDoesNotExists
  /\ runner.ValidateTx st_source (tx_of 0 [payment 10000])
     = Some ErrorBlockAccountDoesNotExists
  /\ runner.ValidateTx st_target (tx_of 0 [payment 10000])
     = Some ErrorBlockAccountDoesNotExists
  /\ runner.ValidateTx st_both (tx_of 0 [payment 10000]) = None.
Proof. vm_compute. auto. Qed.

(** [TestValidateOpCreateExistsAccount] *)
Example TestValidateOpCreateExistsAccount :
  runner.ValidateTx st_both (tx_of 0 [create_account 10000])
  = Some ErrorBlockAccountAlreadyExists
  /\ runner.ValidateTx st_source (tx_of 0 [create_account 10000]) = None.
Proof. vm_compute. auto. Qed.

(** C2 as it is worded does not hold: with the source and the target in
    the storage and a total above the balance, a transaction at the wrong
    sequence id is answered [TransactionInvalidSequenceID], and a
    create-account of the present target [BlockAccountAlreadyExists]. *)
Lemma ValidateTx_ExcessAbilityToPay_counterexample :
  ~ (block.GetBlockAccount st_accounts kps = Some bas ->
     Forall (runner.target_resolves st_accounts) [payment 10000000] ->
     (runner.ValidateTx st_accounts (tx_of 0 [payment 10000000])
      = Some ErrorTransactionExcessAbilityToPay
      <-> block.Balance bas < 10000000 + common.BaseFee * 1))
  /\ ~ (block.GetBlockAccount st_accounts kps = Some bas ->
        Forall (runner.target_resolves st_accounts) [create_account 10000000] ->
        (runner.ValidateTx st_accounts (tx_of 1 [create_account 10000000])
         = Some ErrorTransactionExcessAbilityToPay
         <-> block.Balance bas < 10000000 + common.BaseFee * 1)).
Proof.
  split; intros Hc.
  - assert (E : runner.ValidateTx st_accounts (tx_of 0 [payment 10000000])
                = Some ErrorTransactionInvalidSequenceID)
      by (vm_compute; reflexivity).
    rewrite E in Hc.
    assert (Hn : Some ErrorTransactionInvalidSequenceID
                 = Some ErrorTransactionExcessAbilityToPay).
    { apply Hc; [vm_compute; reflexivity | | vm_compute; reflexivity].
      repeat constructor. }
    discriminate Hn.
  - assert (E : runner.ValidateTx st_accounts
                  (tx_of 1 [create_account 10000000])
                = Some ErrorBlockAccountAlreadyExists)
      by (vm_compute; reflexivity).
    rewrite E in Hc.
    assert (Hn : Some ErrorBlockAccountAlreadyExists
                 = Some ErrorTransactionExcessAbilityToPay).
    { apply Hc; [vm_compute; reflexivity | | vm_compute; reflexivity].
      repeat constructor. }
    discriminate Hn.
Qed.

Lemma ValidateTx_ExcessAbilityToPay_iff_witness :
  (runner.ValidateTx st_accounts (tx_of 1 [payment (10000000 - 10000)])
   = Some ErrorTransactionExcessAbilityToPay
   <-> 10000000 < (10000000 - 10000 + 0) + common.BaseFee * 1)
  /\ ((10000000 - 10000 + 0) + common.BaseFee * 1 <= 10000000 ->
      runner.ValidateTx st_accounts (tx_of 1 [payment (10000000 - 10000)])
      = None).
Proof.
  apply (ValidateTx_ExcessAbilityToPay_iff st_accounts
           (tx_of 1 [payment (10000000 - 10000)]) bas).
  - vm_compute. reflexivity.
  - reflexivity.
  - repeat constructor.
Defined.

(** C3 as it is worded does not hold: the source is there, the target of
    the one payment is there and there is no create-account, yet the
    transaction is refused, for its sequence id. *)
Lemma ValidateTx_accounts_counterexample :
  ~ (is_Some (block.GetBlockAccount st_accounts kps) ->
     Forall (runner.target_ok st_accounts) [payment 10000] ->
     runner.ValidateTx st_accounts (tx_of 0 [payment 10000]) = None).
Proof.
  intros Hc.
  assert (E : runner.ValidateTx st_accounts (tx_of 0 [payment 10000])
              = Some ErrorTransactionInvalidSequenceID)
    by (vm_compute; reflexivity).
  rewrite E in Hc.
  assert (Hn : Some ErrorTransactionInvalidSequenceID = None).
  { apply Hc; [exists bas; vm_compute; reflexivity | repeat constructor]. }
  discriminate Hn.
Qed.

Lemma ValidateTx_accounts_witness :
  runner.ValidateTx ∅ (tx_of 0 [payment 10000])
  = Some ErrorBlockAccountDoesNotExists
  /\ runner.ValidateTx st_source (tx_of 0 [create_account 1; payment 10000])
     = Some ErrorBlockAccountDoesNotExists
  /\ runner.ValidateTx st_both (tx_of 0 [payment 10000; create_account 1])
     = Some ErrorBlockAccountAlreadyExists
  /\ runner.ValidateTx st_both (tx_of 0 [payment 10000; payment 20000]) = None.
Proof.
  split; [|split; [|split]].
  - apply (proj1 (ValidateTx_accounts ∅ (tx_of 0 [payment 10000]))).
    reflexivity.
  - apply (proj1 (proj2 (ValidateTx_accounts st_source
             (tx_of 0 [create_account 1; payment 10000])))
             bas0 [create_account 1] (payment 10000) []);
      try reflexivity.
    repeat constructor.
  - apply (proj2 (proj1 (proj2 (ValidateTx_accounts st_both
             (tx_of 0 [payment 10000; create_account 1])))
             bas0 [payment 10000] (create_account 1) [] eq_refl eq_refl
             eq_refl ltac:(repeat constructor)));
      reflexivity.
  - apply (proj2 (proj2 (ValidateTx_accounts st_both
             (tx_of 0 [payment 10000; payment 20000]))) bas0);
      try reflexivity.
    + repeat constructor.
    + vm_compute. discriminate.
Defined.

(** ** Saving blocks *)

Section SaveFacts.
Import block.

Lemma Has_spec {V : Type} (st : gmap string V) (k : string) :
  storage.Has st k = (bool_decide (is_Some (st !! k)), None).
Proof. reflexivity. Qed.

Lemma New_ok {V : Type} (st st' : gmap string V) (k : string) (v : V) :
  storage.New st k v = (st', None) ->
  st !! k = None /\ st' = <[k := v]> st.
Proof.
  unfold storage.New. rewrite Has_spec.
  destruct (bool_decide_reflect (is_Some (st !! k))) as [Hs|Hn];
    intros E; inversion E; subst.
  split; [|reflexivity]. now apply eq_None_not_Some.
Qed.

Lemma New_error {V : Type} (st st' : gmap string V) (k : string) (v : V)
  (e : Error) :
  storage.New st k v = (st', Some e) ->
  st' = st /\ e = ErrorStorageRecordAlreadyExists /\ is_Some (st !! k).
Proof.
  unfold storage.New. rewrite Has_spec.
  destruct (bool_decide_reflect (is_Some (st !! k))) as [Hs|Hn];
    intros E; inversion E; subst. auto.
Qed.

(** A block whose hash is stored is refused and nothing is written. *)
Lemma Save_already_exists (b : Block) (uuid : string)
  (st : gmap string Item) :
  is_Some (st !! GetBlockKey (Hash b)) ->
  Save b uuid st = (st, Some ErrorBlockAlreadyExists).
Proof.
  intros Hs. unfold Save. rewrite Has_spec.
  now rewrite (bool_decide_eq_true_2 _ Hs).
Qed.

(** C4 (amended): [Save] writes the three records one after the other and
    takes nothing back.  It answers [BlockAlreadyExists] exactly when the
    hash key is taken, and the storage is then as it was; without an
    error the three records are in the storage; with any other error the
    block record of this call has been written and is still there. *)
Theorem Save_outcomes (b : Block) (uuid : string) (st st' : gmap string Item)
  (err : option Error) :
  Save b uuid st = (st', err) ->
  (err = Some ErrorBlockAlreadyExists
   <-> is_Some (st !! GetBlockKey (Hash b)))
  /\ (err = Some ErrorBlockAlreadyExists -> st' = st)
  /\ (err = None ->
      st' !! GetBlockKey (Hash b) = Some (ItemBlock b)
      /\ st' !! NewBlockKeyConfirmed b uuid = Some (ItemString (Hash b))
      /\ st' !! GetBlockKeyPrefixHeight (Height (BlockHeader b))
         = Some (ItemString (Hash b)))
  /\ (forall e, err = Some e -> e <> ErrorBlockAlreadyExists ->
      st !! GetBlockKey (Hash b) = None
      /\ st' !! GetBlockKey (Hash b) = Some (ItemBlock b)).
Proof.
  unfold Save. rewrite Has_spec.
  destruct (bool_decide_reflect (is_Some (st !! GetBlockKey (Hash b))))
    as [Hs|Hn].
  - intros E. inversion E. subst.
    split; [split; auto|]. split; [auto|]. split; [discriminate|].
    intros e' He Hne. congruence.
  - assert (Hnone : st !! GetBlockKey (Hash b) = None)
      by now apply eq_None_not_Some.
    destruct (storage.New st (GetBlockKey (Hash b)) (ItemBlock b))
      as [st1 [e1|]] eqn:E1.
    { apply New_error in E1 as (_ & _ & Hs). contradiction. }
    apply New_ok in E1 as [_ ->].
    destruct (storage.New (<[GetBlockKey (Hash b) := ItemBlock b]> st)
                (NewBlockKeyConfirmed b uuid) (ItemString (Hash b)))
      as [st2 [e2|]] eqn:E2.
    { apply New_error in E2 as (-> & -> & Hs2).
      intros E. inversion E. subst.
      split; [split; [discriminate | contradiction]|].
      split; [discriminate|]. split; [discriminate|].
      intros e _ _. split; [exact Hnone | apply lookup_insert_eq]. }
    apply New_ok in E2 as [Hk2 ->].
    assert (Hne2 : GetBlockKey (Hash b) <> NewBlockKeyConfirmed b uuid).
    { intros Heq. rewrite <- Heq, lookup_insert_eq in Hk2. discriminate. }
    intros E3.
    destruct err as [e3|].
    + apply New_error in E3 as (-> & -> & Hs3).
      split; [split; [discriminate | contradiction]|].
      split; [discriminate|]. split; [discriminate|].
      intros e _ _. split; [exact Hnone|].
      rewrite lookup_insert_ne by congruence. apply lookup_insert_eq.
    + apply New_ok in E3 as [Hk3 ->].
      split; [split; [discriminate | contradiction]|].
      split; [discriminate|]. split; [|discriminate].
      intros _.
      assert (Hne3 : NewBlockKeyConfirmed b uuid
                     <> GetBlockKeyPrefixHeight (Height (BlockHeader b))).
      { intros Heq. rewrite <- Heq, lookup_insert_eq in Hk3. discriminate. }
      assert (Hne4 : GetBlockKey (Hash b)
                     <> GetBlockKeyPrefixHeight (Height (BlockHeader b))).
      { intros Heq. rewrite <- Heq in Hk3.
        rewrite lookup_insert_ne, lookup_insert_eq in Hk3 by congruence.
        discriminate. }
      repeat split.
      * rewrite !lookup_insert_ne by congruence. apply lookup_insert_eq.
      * rewrite lookup_insert_ne by congruence. apply lookup_insert_eq.
      * apply lookup_insert_eq.
Qed.

(** C5: with a record under the height key of height 1,
    [MakeGenesisBlock] answers [BlockAlreadyExists] and hands the storage
    back as it got it: no block, block transaction or key is written. *)
Theorem MakeGenesisBlock_already_exists `{Collaborators}
  (st : gmap string Item) (account : BlockAccount)
  (networkID uuid : string) :
  is_Some (st !! GetBlockKeyPrefixHeight 1) ->
  MakeGenesisBlock st account networkID uuid
  = (st, (Block0, Some ErrorBlockAlreadyExists)).
Proof.
  intros Hs. unfold MakeGenesisBlock, ExistsBlockByHeight.
  rewrite Has_spec. now rewrite (bool_decide_eq_true_2 _ Hs).
Qed.

End SaveFacts.

(** C4 as it is worded does not hold: with a block of height 1 in the
    storage, saving another block of that height fails at the third
    write, and the block record and the confirmed record of the call are
    in the storage, where they were not before. *)
Lemma Save_not_atomic :
  let b := block_of "h2" 1 in
  let r := block.Save b "uuid-2" st_h1 in
  snd r = Some ErrorStorageRecordAlreadyExists
  /\ st_h1 !! block.GetBlockKey "h2" = None
  /\ fst r !! block.GetBlockKey "h2" = Some (block.ItemBlock b)
  /\ st_h1 !! block.NewBlockKeyConfirmed b "uuid-2" = None
  /\ fst r !! block.NewBlockKeyConfirmed b "uuid-2"
     = Some (block.ItemString "h2")
  /\ fst r !! block.GetBlockKeyPrefixHeight 1 = Some (block.ItemString "h1").
Proof. cbv zeta. repeat apply conj; vm_compute; reflexivity. Qed.

Lemma Save_outcomes_witness :
  let b := block_of "h1" 1 in
  st_h1 !! block.GetBlockKey "h1" = Some (block.ItemBlock b)
  /\ st_h1 !! block.NewBlockKeyConfirmed b "uuid-1"
     = Some (block.ItemString "h1")
  /\ st_h1 !! block.GetBlockKeyPrefixHeight 1 = Some (block.ItemString "h1").
Proof.
  intros b.
  assert (E : block.Save b "uuid-1" ∅
              = (st_h1, snd (block.Save b "uuid-1" ∅)))
    by apply surjective_pairing.
  apply (proj1 (proj2 (proj2 (Save_outcomes b "uuid-1" ∅ st_h1 _ E)))).
  vm_compute. reflexivity.
Defined.

Lemma MakeGenesisBlock_already_exists_witness :
  @block.MakeGenesisBlock collaborators_a st_h1 bas "sebak-test-network"
    "uuid-2"
  = (st_h1, (block.Block0, Some ErrorBlockAlreadyExists)).
Proof.
  apply (@MakeGenesisBlock_already_exists collaborators_a st_h1 bas
           "sebak-test-network" "uuid-2").
  exists (block.ItemString "h1"). vm_compute. reflexivity.
Defined.

(** The genesis block is made once: on the empty storage the call
    succeeds and leaves a block of height 1, and the same call on the
    storage it leaves is refused and adds no record. *)
Example MakeGenesisBlock_twice :
  let r1 := @block.MakeGenesisBlock collaborators_a ∅ bas "net" "uuid-1" in
  let r2 := @block.MakeGenesisBlock collaborators_a (fst r1) bas "net"
              "uuid-2" in
  snd (snd r1) = None
  /\ block.Height (block.BlockHeader (fst (snd r1))) = 1
  /\ snd (snd r2) = Some ErrorBlockAlreadyExists
  /\ size (fst r2) = size (fst r1).
Proof. cbv zeta. repeat apply conj; vm_compute; reflexivity. Qed.

(** ** The latest block *)

Section LatestBlockFacts.
Import block.

Lemma In_insert_by_key {V : Type} (x y : string * V) (l : list (string * V)) :
  In x (storage.insert_by_key y l) <-> x = y \/ In x l.
Proof.
  induction l as [|z l IH]; simpl.
  - intuition.
  - destruct (String.leb (fst y) (fst z)); simpl; intuition.
Qed.

Lemma In_sort_by_key {V : Type} (x : string * V) (l : list (string * V)) :
  In x (storage.sort_by_key l) <-> In x l.
Proof.
  unfold storage.sort_by_key. induction l as [|y l IH]; simpl.
  - reflexivity.
  - rewrite In_insert_by_key, IH. intuition.
Qed.

(** What an iterator yields is a record of the storage under the
    prefix. *)
Lemma GetIterator_items {V : Type} (st : gmap string V) (p : string)
  (options : storage.ListOptions) (item : storage.IterItem V) :
  In item (storage.GetIterator st p options) ->
  exists v : V,
    storage.Value item = Some v
    /\ st !! storage.Key item = Some v
    /\ String.prefix p (storage.Key item) = true.
Proof.
  unfold storage.GetIterator. intros Hin.
  apply in_map_iff in Hin as ([k v] & <- & Hin). simpl.
  exists v. split; [reflexivity|].
  assert (Hord : In (k, v)
            (if storage.Reverse options
             then rev (storage.sort_by_key
                         (List.filter (storage.has_prefix p) (map_to_list st)))
             else storage.sort_by_key
                    (List.filter (storage.has_prefix p) (map_to_list st)))).
  { destruct (storage.Limit options) as [|n]; [exact Hin|].
    apply list_elem_of_In. apply list_elem_of_In in Hin.
    eapply subseteq_take, Hin. }
  assert (Hs : In (k, v) (List.filter (storage.has_prefix p) (map_to_list st))).
  { apply In_sort_by_key.
    destruct (storage.Reverse options); [now apply in_rev|exact Hord]. }
  apply filter_In in Hs as [Hm Hp].
  apply list_elem_of_In, elem_of_map_to_list in Hm. auto.
Qed.

Lemma GetIterator_none {V : Type} (st : gmap string V) (p : string)
  (options : storage.ListOptions) :
  (forall k, String.prefix p k = true -> st !! k = None) ->
  storage.GetIterator st p options = [].
Proof.
  intros Hnone.
  destruct (storage.GetIterator st p options) as [|item rest] eqn:E;
    [reflexivity|].
  destruct (GetIterator_items st p options item) as (v & _ & Hv & Hp).
  { rewrite E. now left. }
  rewrite (Hnone _ Hp) in Hv. discriminate.
Qed.

(** A block that [GetLatestBlock] hands back without an error has a
    hash. *)
Lemma GetLatestBlock_found (st : gmap string Item) (b : Block) :
  GetLatestBlock st = (b, None) -> Hash b <> "".
Proof.
  unfold GetLatestBlock.
  destruct (LoadBlocksInsideIterator st _) as [[[b' hasNext] key] rest].
  destruct (String.eqb_spec (Hash b') ""); intros E; inversion E.
  subst. assumption.
Qed.

(** C10: on a storage without a saved block [GetLatestBlock] answers
    [BlockNotFound]; the empty block the iterator leaves is not handed
    back as a result. *)
Theorem GetLatestBlock_not_found (st : gmap string Item) :
  no_saved_block st ->
  snd (GetLatestBlock st) = Some ErrorBlockNotFound.
Proof.
  intros Hno. unfold GetLatestBlock, GetBlocksByConfirmed.
  destruct (storage.GetIterator st BlockPrefixConfirmed
              (storage.NewDefaultListOptions true 1))
    as [|item rest] eqn:E.
  - reflexivity.
  - destruct (GetIterator_items st BlockPrefixConfirmed
                (storage.NewDefaultListOptions true 1) item)
      as (v & Hv & Hst & Hp).
    { rewrite E. now left. }
    unfold LoadBlocksInsideIterator, GetBlock, storage.Get. rewrite Hv.
    destruct (st !! GetBlockKey (hash_of_item (Some v))) as [i|] eqn:Hb;
      [destruct i as [b| | |]|]; try reflexivity.
    rewrite (Hno _ _ _ Hp Hst Hb). reflexivity.
Qed.

End LatestBlockFacts.

Lemma GetLatestBlock_not_found_witness :
  snd (block.GetLatestBlock st_accounts) = Some ErrorBlockNotFound.
Proof.
  apply (GetLatestBlock_not_found st_accounts).
  intros k v b Hp Hk Hb.
  assert (Hnone : forall h, st_accounts !! block.GetBlockKey h = None).
  { intros h. unfold st_accounts, block.BlockAccount_Save.
    rewrite !lookup_insert_ne by discriminate. apply lookup_empty. }
  rewrite Hnone in Hb. discriminate.
Defined.

(** On the empty storage, and on the one that holds accounts only. *)
Example GetLatestBlock_empty :
  block.GetLatestBlock ∅ = (block.Block0, Some ErrorBlockNotFound)
  /\ block.GetLatestBlock st_accounts
     = (block.Block0, Some ErrorBlockNotFound).
Proof. split; vm_compute; reflexivity. Qed.

(** After a save the saved block is the latest one. *)
Example GetLatestBlock_saved :
  fst (block.GetLatestBlock st_h1) = block_of "h1" 1
  /\ snd (block.GetLatestBlock st_h1) = None.
Proof. split; vm_compute; reflexivity. Qed.

(** ** Broadcasting *)

Section BroadcastFacts.
Import node network.
Variable GetClient : Endpoint -> option NetworkClient.

Lemma GetConnection_available (c : ValidatorConnectionManager)
  (address : string) :
  available GetClient c address ->
  exists c' cl,
    GetConnection GetClient c address = (c', Some cl)
    /\ validators c' = validators c
    /\ (forall a, available GetClient c a -> available GetClient c' a).
Proof.
  unfold GetConnection. intros Hav.
  destruct (clients c !! address) as [cl|] eqn:Hc.
  - exists c, cl. auto.
  - destruct Hav as [[x Hx]|(v & Hv & [cl Hcl])]; [congruence|].
    rewrite Hv, Hcl.
    exists (with_clients (<[address := cl]> (clients c)) c), cl.
    split; [reflexivity|]. split; [reflexivity|].
    intros a [Hs|Hr]; [left | right; exact Hr]. simpl.
    destruct (decide (address = a)) as [->|Hne].
    + rewrite lookup_insert_eq. eauto.
    + rewrite lookup_insert_ne by exact Hne. exact Hs.
Qed.

Lemma send_dispatch (message : Message) (c : ValidatorConnectionManager)
  (v : Validator) :
  available GetClient c (v_address v) ->
  exists c' cl,
    send GetClient message c (Some v) = (c', dispatch message cl)
    /\ validators c' = validators c
    /\ (forall a, available GetClient c a -> available GetClient c' a).
Proof.
  intros Hav.
  destruct (GetConnection_available c (v_address v) Hav)
    as (c' & cl & E & Hv & Hmono).
  exists c', cl. unfold send, dispatch. rewrite E.
  split; [|auto].
  destruct (String.eqb (GetType message) common.BallotMessage);
    [reflexivity|].
  destruct (String.eqb (GetType message) common.TransactionMessage);
    reflexivity.
Qed.

(** Every goroutine of the loop ends in what [dispatch] says, and there is
    one for each entry marked connected. *)
Lemma broadcast_loop_dispatch (message : Message)
  (entries : list (string * bool)) (c : ValidatorConnectionManager) :
  (forall addr, In (addr, true) entries ->
     exists v, validators c !! addr = Some v
               /\ available GetClient c (v_address v)) ->
  length (snd (broadcast_loop GetClient message c entries))
  = length (List.filter snd entries)
  /\ Forall (fun o => exists cl, o = dispatch message cl)
       (snd (broadcast_loop GetClient message c entries)).
Proof.
  revert c. induction entries as [|[addr b] rest IH]; intros c Hk; simpl.
  - split; [reflexivity | constructor].
  - destruct b; simpl.
    + destruct (Hk addr (or_introl eq_refl)) as (v & Hv & Hav).
      rewrite Hv.
      destruct (send_dispatch message c v Hav) as (c' & cl & E & Hv' & Hmono).
      rewrite E.
      destruct (IH c') as [Hlen Hall].
      { intros a Ha. destruct (Hk a (or_intror Ha)) as (v' & Hva & Hav').
        exists v'. rewrite Hv'. auto. }
      destruct (broadcast_loop GetClient message c' rest) as [c'' os].
      simpl in *. split; [now rewrite Hlen|].
      constructor; [now exists cl | exact Hall].
    + apply IH. intros a Ha. apply Hk. now right.
Qed.

Lemma existsb_dispatch (message : Message) (os : list Outcome) :
  Forall (fun o => exists cl, o = dispatch message cl) os ->
  existsb is_panic os
  = negb (String.eqb (GetType message) common.BallotMessage)
    && negb (String.eqb (GetType message) common.TransactionMessage)
    && negb (Nat.eqb (length os) 0).
Proof.
  unfold dispatch.
  induction 1 as [|o os [cl ->] _ IH]; simpl.
  - now rewrite andb_false_r.
  - rewrite IH.
    destruct (String.eqb (GetType message) common.BallotMessage);
      [reflexivity|].
    destruct (String.eqb (GetType message) common.TransactionMessage);
      reflexivity.
Qed.

Lemma some_connected (c : ValidatorConnectionManager) :
  (exists a, connected c !! a = Some true)
  <-> countConnectedUnlocked c <> 0%nat.
Proof.
  unfold countConnectedUnlocked. split.
  - intros [a Ha]. apply elem_of_map_to_list, list_elem_of_In in Ha.
    assert (Hin : In (a, true) (List.filter snd (map_to_list (connected c))))
      by (apply filter_In; auto).
    destruct (List.filter snd (map_to_list (connected c)));
      [destruct Hin | discriminate].
  - intros Hn.
    destruct (List.filter snd (map_to_list (connected c)))
      as [|[a b] l] eqn:E; [contradiction|].
    assert (Hin : In (a, b) (List.filter snd (map_to_list (connected c))))
      by (rewrite E; now left).
    apply filter_In in Hin as [Hin Hb]. simpl in Hb. subst b.
    exists a. now apply elem_of_map_to_list, list_elem_of_In.
Qed.

(** Where the check of the type is reached: in a manager whose connected
    addresses are registered validators with a client to be had,
    [Broadcast] aborts exactly when the type of the message is neither
    the ballot nor the transaction type and some validator is marked
    connected.  A ballot goes through [SendBallot] and a transaction
    through [SendMessage], once for each connected validator, without a
    panic. *)
Theorem Broadcast_aborts_iff (c : ValidatorConnectionManager)
  (message : Message) :
  connected_known GetClient c ->
  (aborts (Broadcast GetClient c message) = true
   <-> GetType message <> common.BallotMessage
       /\ GetType message <> common.TransactionMessage
       /\ exists a, connected c !! a = Some true)
  /\ (GetType message = common.BallotMessage ->
      aborts (Broadcast GetClient c message) = false
      /\ length (snd (Broadcast GetClient c message))
         = countConnectedUnlocked c
      /\ Forall (fun o => exists cl, o = SendBallot cl message)
           (snd (Broadcast GetClient c message)))
  /\ (GetType message = common.TransactionMessage ->
      aborts (Broadcast GetClient c message) = false
      /\ length (snd (Broadcast GetClient c message))
         = countConnectedUnlocked c
      /\ Forall (fun o => exists cl, o = SendMessage cl message)
           (snd (Broadcast GetClient c message))).
Proof.
  intros Hk. unfold aborts, Broadcast.
  destruct (broadcast_loop_dispatch message (map_to_list (connected c)) c)
    as [Hlen Hall].
  { intros a Ha. apply Hk.
    now apply elem_of_map_to_list, list_elem_of_In. }
  fold (countConnectedUnlocked c) in Hlen.
  rewrite (existsb_dispatch message _ Hall), Hlen.
  rewrite some_connected.
  split; [|split].
  - destruct (String.eqb_spec (GetType message) common.BallotMessage);
      destruct (String.eqb_spec (GetType message) common.TransactionMessage);
      destruct (Nat.eqb_spec (countConnectedUnlocked c) 0); simpl;
      split; try discriminate; try tauto; intros (? & ? & ?); contradiction.
  - intros Hb. rewrite Hb, String.eqb_refl. simpl.
    split; [reflexivity|]. split; [reflexivity|].
    eapply Forall_impl; [exact Hall|].
    intros o [cl ->]. exists cl. unfold dispatch.
    now rewrite Hb, String.eqb_refl.
  - intros Ht. rewrite Ht. simpl.
    split; [reflexivity|]. split; [reflexivity|].
    eapply Forall_impl; [exact Hall|].
    intros o [cl ->]. exists cl. unfold dispatch.
    now rewrite Ht.
Qed.

(** A fresh manager has the property [Broadcast_aborts_iff] asks for,
    and a liveness probe of a registered validator whose client the
    network hands out keeps it. *)
Lemma connected_known_new (n : LocalNode) (vs : gmap string Validator) :
  connected_known GetClient (NewValidatorConnectionManager n vs).
Proof.
  intros addr Ha. simpl in Ha. rewrite lookup_empty in Ha. discriminate.
Qed.

Lemma connected_known_setConnected (c : ValidatorConnectionManager)
  (v : Validator) (b : bool) :
  connected_known GetClient c ->
  validators c !! v_address v = Some v ->
  is_Some (GetClient (v_endpoint v)) ->
  connected_known GetClient (fst (setConnected c v b)).
Proof.
  intros Hk Hv Hcl addr Ha. simpl in *.
  destruct (decide (v_address v = addr)) as [<-|Hne].
  - exists v. split; [exact Hv|]. right. exists v. auto.
  - rewrite lookup_insert_ne in Ha by exact Hne.
    destruct (Hk addr Ha) as (v' & Hv' & [Hs|Hr]);
      exists v'; (split; [exact Hv'|]); [left | right]; assumption.
Qed.

End BroadcastFacts.

(** C7 (as the code has it): the panic on a message that is neither a
    ballot nor a transaction is missed when no validator is marked
    connected: the check of the type sits in the goroutine of a connected
    validator, and without one, be it before the first probe or with the
    validator marked disconnected, [Broadcast] of a message of an unknown
    type returns without a panic. *)
Lemma Broadcast_unknown_type_no_abort :
  network.GetType (message_of "unknown") <> common.BallotMessage
  /\ network.GetType (message_of "unknown") <> common.TransactionMessage
  /\ network.aborts
       (network.Broadcast GetClient_a manager_new (message_of "unknown"))
     = false
  /\ network.aborts
       (network.Broadcast GetClient_a manager_off (message_of "unknown"))
     = false.
Proof.
  split; [discriminate|]. split; [discriminate|].
  split; vm_compute; reflexivity.
Qed.

Lemma manager_on_known : network.connected_known GetClient_a manager_on.
Proof.
  apply connected_known_setConnected.
  - apply connected_known_new.
  - apply lookup_insert_eq.
  - now exists {| network.client_endpoint := endpoint_a |}.
Qed.

Lemma Broadcast_aborts_iff_witness :
  network.aborts (network.Broadcast GetClient_a manager_on (message_of "bogus"))
  = true
  /\ network.aborts
       (network.Broadcast GetClient_a manager_on (message_of "ballot"))
     = false.
Proof.
  split.
  - apply (proj1 (Broadcast_aborts_iff GetClient_a manager_on
                    (message_of "bogus") manager_on_known)).
    split; [discriminate|]. split; [discriminate|].
    exists (node.v_address validator_b). vm_compute. reflexivity.
  - apply (proj1 (proj2 (Broadcast_aborts_iff GetClient_a manager_on
                           (message_of "ballot") manager_on_known))).
    reflexivity.
Defined.

(** An address marked connected that is no registered validator makes
    the goroutine panic on the nil validator, whatever the type. *)
Example Broadcast_nil_validator :
  let c :=
    fst (network.setConnected
           (network.NewValidatorConnectionManager node_a ∅) validator_b true) in
  snd (network.Broadcast GetClient_a c (message_of "ballot"))
  = [network.Panic "nil pointer dereference"].
Proof. vm_compute. reflexivity. Qed.

(** With the validator connected: a ballot and a transaction are sent,
    an unknown type panics. *)
Example Broadcast_connected :
  snd (network.Broadcast GetClient_a manager_on (message_of "ballot"))
  = [network.SendBallot {| network.client_endpoint := endpoint_a |}
       (message_of "ballot")]
  /\ snd (network.Broadcast GetClient_a manager_on (message_of "transaction"))
     = [network.SendMessage {| network.client_endpoint := endpoint_a |}
          (message_of "transaction")]
  /\ snd (network.Broadcast GetClient_a manager_on (message_of "unknown"))
     = [network.Panic "invalid message"].
Proof. repeat apply conj; vm_compute; reflexivity. Qed.

(** * Further properties of the embedded code *)

(** ** Blocks in the storage *)

Section BlockStoreFacts.
Import block.

(** What a successful [Save] leaves: the three inserts on top of the
    storage, under three different keys, the first of which was free. *)
Lemma Save_ok_shape (b : Block) (uuid : string) (st st' : gmap string Item) :
  Save b uuid st = (st', None) ->
  st !! GetBlockKey (Hash b) = None
  /\ GetBlockKey (Hash b) <> NewBlockKeyConfirmed b uuid
  /\ GetBlockKey (Hash b) <> GetBlockKeyPrefixHeight (Height (BlockHeader b))
  /\ NewBlockKeyConfirmed b uuid
     <> GetBlockKeyPrefixHeight (Height (BlockHeader b))
  /\ st' = <[GetBlockKeyPrefixHeight (Height (BlockHeader b))
              := ItemString (Hash b)]>
             (<[NewBlockKeyConfirmed b uuid := ItemString (Hash b)]>
                (<[GetBlockKey (Hash b) := ItemBlock b]> st)).
Proof.
  unfold Save. rewrite Has_spec.
  destruct (bool_decide_reflect (is_Some (st !! GetBlockKey (Hash b))))
    as [Hs|Hn]; [discriminate|].
  destruct (storage.New st (GetBlockKey (Hash b)) (ItemBlock b))
    as [st1 [e1|]] eqn:E1; [discriminate|].
  apply New_ok in E1 as [H1 ->].
  destruct (storage.New _ (NewBlockKeyConfirmed b uuid) _)
    as [st2 [e2|]] eqn:E2; [discriminate|].
  apply New_ok in E2 as [H2 ->].
  intros E3. apply New_ok in E3 as [H3 ->].
  assert (Hbc : GetBlockKey (Hash b) <> NewBlockKeyConfirmed b uuid).
  { intros Heq. rewrite <- Heq, lookup_insert_eq in H2. discriminate. }
  assert (Hch : NewBlockKeyConfirmed b uuid
                <> GetBlockKeyPrefixHeight (Height (BlockHeader b))).
  { intros Heq. rewrite <- Heq, lookup_insert_eq in H3. discriminate. }
  assert (Hbh : GetBlockKey (Hash b)
                <> GetBlockKeyPrefixHeight (Height (BlockHeader b))).
  { intros Heq. rewrite <- Heq in H3.
    rewrite lookup_insert_ne, lookup_insert_eq in H3 by congruence.
    discriminate. }
  auto.
Qed.

Lemma New_keeps {V : Type} (st st' : gmap string V) (k : string) (v : V)
  (e : option Error) :
  storage.New st k v = (st', e) ->
  (forall k' v', st !! k' = Some v' -> st' !! k' = Some v')
  /\ (forall k', k' <> k -> st' !! k' = st !! k').
Proof.
  destruct e as [e|]; intros E.
  - apply New_error in E as (-> & _ & _). auto.
  - apply New_ok in E as [Hk ->]. split.
    + intros k' v' Hk'. rewrite lookup_insert_ne; [exact Hk'|congruence].
    + intros k' Hne. now rewrite lookup_insert_ne.
Qed.

Lemma Save_ok_GetBlock (b : Block) (uuid : string)
  (st st' : gmap string Item) :
  Save b uuid st = (st', None) ->
  st' !! GetBlockKey (Hash b) = Some (ItemBlock b)
  /\ GetBlock st' (Hash b) = (b, None).
Proof.
  intros E. apply Save_ok_shape in E as (_ & Hbc & Hbh & Hch & ->).
  assert (Hb : (<[GetBlockKeyPrefixHeight (Height (BlockHeader b))
                   := ItemString (Hash b)]>
                  (<[NewBlockKeyConfirmed b uuid := ItemString (Hash b)]>
                     (<[GetBlockKey (Hash b) := ItemBlock b]> st)))
               !! GetBlockKey (Hash b) = Some (ItemBlock b)).
  { rewrite !lookup_insert_ne by congruence. apply lookup_insert_eq. }
  split; [exact Hb|]. unfold GetBlock, storage.Get. now rewrite Hb.
Qed.

(** X1: a block saved without an error is found again: [GetBlock] by its
    hash and [GetBlockByHeight] by its height hand back the very block,
    and [ExistsBlock] and [ExistsBlockByHeight] answer true. *)
Theorem Save_then_Get (b : Block) (uuid : string)
  (st st' : gmap string Item) :
  Save b uuid st = (st', None) ->
  GetBlock st' (Hash b) = (b, None)
  /\ GetBlockByHeight st' (Height (BlockHeader b)) = (b, None)
  /\ ExistsBlock st' (Hash b) = (true, None)
  /\ ExistsBlockByHeight st' (Height (BlockHeader b)) = (true, None).
Proof.
  intros E. destruct (Save_ok_GetBlock b uuid st st' E) as [Hb Hg].
  apply Save_ok_shape in E as (_ & Hbc & Hbh & Hch & Est).
  rewrite Est in Hb, Hg. rewrite Est. clear Est.
  split; [exact Hg|]. split; [|split].
  - unfold GetBlockByHeight, storage.Get. rewrite lookup_insert_eq. exact Hg.
  - unfold ExistsBlock. rewrite Has_spec, Hb.
    now rewrite bool_decide_eq_true_2 by eauto.
  - unfold ExistsBlockByHeight. rewrite Has_spec, lookup_insert_eq.
    now rewrite bool_decide_eq_true_2 by eauto.
Qed.

Lemma Save_keeps (b : Block) (uuid : string)
  (st st' : gmap string Item) (err : option Error) :
  Save b uuid st = (st', err) ->
  (forall k v, st !! k = Some v -> st' !! k = Some v)
  /\ (forall k,
        k <> GetBlockKey (Hash b) ->
        k <> NewBlockKeyConfirmed b uuid ->
        k <> GetBlockKeyPrefixHeight (Height (BlockHeader b)) ->
        st' !! k = st !! k).
Proof.
  unfold Save. rewrite Has_spec.
  destruct (bool_decide (is_Some (st !! GetBlockKey (Hash b)))).
  { intros E. inversion E. subst. auto. }
  destruct (storage.New st (GetBlockKey (Hash b)) (ItemBlock b))
    as [st1 e1] eqn:E1.
  destruct (New_keeps _ _ _ _ _ E1) as [K1 F1].
  destruct e1 as [e1|].
  { intros E. inversion E. subst. split; [exact K1 | auto]. }
  destruct (storage.New st1 (NewBlockKeyConfirmed b uuid)
              (ItemString (Hash b))) as [st2 e2] eqn:E2.
  destruct (New_keeps _ _ _ _ _ E2) as [K2 F2].
  destruct e2 as [e2|].
  { intros E. inversion E. subst. split; [auto|].
    intros k H1 H2 H3. rewrite F2, F1; auto. }
  intros E3. destruct (New_keeps _ _ _ _ _ E3) as [K3 F3].
  split; [auto|]. intros k H1 H2 H3. rewrite F3, F2, F1; auto.
Qed.

Lemma GetBlock_kept (st st' : gmap string Item) (hash : string) (b0 : Block) :
  (forall k v, st !! k = Some v -> st' !! k = Some v) ->
  GetBlock st hash = (b0, None) -> GetBlock st' hash = (b0, None).
Proof.
  intros K. unfold GetBlock, storage.Get.
  destruct (st !! GetBlockKey hash) as [i|] eqn:Hi; [|discriminate].
  rewrite (K _ _ Hi). auto.
Qed.

(** X2: [Save] never removes or overwrites a record, with or without an
    error: every record of the storage is still there, the keys other
    than the three of the block are untouched, and every block that
    [GetBlock] found before is found after. *)
Theorem Save_keeps_records (b : Block) (uuid : string)
  (st st' : gmap string Item) (err : option Error) :
  Save b uuid st = (st', err) ->
  (forall k v, st !! k = Some v -> st' !! k = Some v)
  /\ (forall k,
        k <> GetBlockKey (Hash b) ->
        k <> NewBlockKeyConfirmed b uuid ->
        k <> GetBlockKeyPrefixHeight (Height (BlockHeader b)) ->
        st' !! k = st !! k)
  /\ (forall hash b0, GetBlock st hash = (b0, None) ->
        GetBlock st' hash = (b0, None)).
Proof.
  intros E. destruct (Save_keeps b uuid st st' err E) as [K F].
  split; [exact K|]. split; [exact F|].
  intros hash b0. now apply GetBlock_kept.
Qed.

(** X3: saving is refused the second time: after a save without an
    error, saving the same block again, under any unique id, answers
    [BlockAlreadyExists] and leaves the storage as it is. *)
Theorem Save_twice (b : Block) (uuid uuid' : string)
  (st st' : gmap string Item) :
  Save b uuid st = (st', None) ->
  Save b uuid' st' = (st', Some ErrorBlockAlreadyExists).
Proof.
  intros E. apply Save_already_exists.
  apply Save_ok_shape in E as (_ & Hbc & Hbh & _ & ->).
  exists (ItemBlock b).
  rewrite !lookup_insert_ne by congruence. apply lookup_insert_eq.
Qed.

(** X24: a height is given once: when the height key of a block is
    taken, [Save] of the block does not succeed, the record under the
    height key stays what it was, and the block [GetBlockByHeight] found
    for that height is still the one it finds. *)
Theorem Save_height_taken (b : Block) (uuid : string)
  (st st' : gmap string Item) (err : option Error) :
  is_Some (st !! GetBlockKeyPrefixHeight (Height (BlockHeader b))) ->
  Save b uuid st = (st', err) ->
  err <> None
  /\ st' !! GetBlockKeyPrefixHeight (Height (BlockHeader b))
     = st !! GetBlockKeyPrefixHeight (Height (BlockHeader b))
  /\ (forall b0,
        GetBlockByHeight st (Height (BlockHeader b)) = (b0, None) ->
        GetBlockByHeight st' (Height (BlockHeader b)) = (b0, None)).
Proof.
  intros [x Hx] E. destruct (Save_keeps b uuid st st' err E) as [K _].
  split; [|split].
  - intros ->. revert E. unfold Save. rewrite Has_spec.
    destruct (bool_decide (is_Some (st !! GetBlockKey (Hash b))));
      [discriminate|].
    destruct (storage.New st (GetBlockKey (Hash b)) (ItemBlock b))
      as [st1 [e1|]] eqn:E1; [discriminate|].
    destruct (New_keeps _ _ _ _ _ E1) as [K1 _].
    destruct (storage.New st1 (NewBlockKeyConfirmed b uuid)
                (ItemString (Hash b))) as [st2 [e2|]] eqn:E2; [discriminate|].
    destruct (New_keeps _ _ _ _ _ E2) as [K2 _].
    intros E3. apply New_ok in E3 as [H3 _].
    rewrite (K2 _ _ (K1 _ _ Hx)) in H3. discriminate.
  - rewrite Hx. now apply K.
  - intros b0. unfold GetBlockByHeight, storage.Get.
    rewrite Hx, (K _ _ Hx). destruct x; try discriminate.
    now apply GetBlock_kept.
Qed.

End BlockStoreFacts.

Lemma Save_then_Get_witness :
  block.GetBlock st_h1 "h1" = (block_of "h1" 1, None)
  /\ block.GetBlockByHeight st_h1 1 = (block_of "h1" 1, None)
  /\ block.ExistsBlock st_h1 "h1" = (true, None)
  /\ block.ExistsBlockByHeight st_h1 1 = (true, None).
Proof.
  apply (Save_then_Get (block_of "h1" 1) "uuid-1" ∅ st_h1).
  unfold st_h1.
  destruct (block.Save (block_of "h1" 1) "uuid-1" ∅) as [s e] eqn:E.
  assert (He : snd (block.Save (block_of "h1" 1) "uuid-1" ∅) = None)
    by (vm_compute; reflexivity).
  rewrite E in He. simpl in He. subst e. reflexivity.
Defined.

Lemma Save_h1_ok :
  block.Save (block_of "h1" 1) "uuid-1" ∅ = (st_h1, None).
Proof.
  unfold st_h1.
  destruct (block.Save (block_of "h1" 1) "uuid-1" ∅) as [s e] eqn:E.
  assert (He : snd (block.Save (block_of "h1" 1) "uuid-1" ∅) = None)
    by (vm_compute; reflexivity).
  rewrite E in He. simpl in He. subst e. reflexivity.
Qed.

Lemma Save_keeps_records_witness :
  block.GetBlock (fst (block.Save (block_of "h2" 1) "uuid-2" st_h1)) "h1"
  = (block_of "h1" 1, None).
Proof.
  apply (proj2 (proj2 (Save_keeps_records (block_of "h2" 1) "uuid-2" st_h1
                         (fst (block.Save (block_of "h2" 1) "uuid-2" st_h1))
                         (snd (block.Save (block_of "h2" 1) "uuid-2" st_h1))
                         (surjective_pairing _)))).
  vm_compute. reflexivity.
Defined.

Lemma Save_twice_witness :
  block.Save (block_of "h1" 1) "uuid-9" st_h1
  = (st_h1, Some ErrorBlockAlreadyExists).
Proof.
  apply (Save_twice (block_of "h1" 1) "uuid-1" "uuid-9" ∅ st_h1).
  exact Save_h1_ok.
Defined.

Lemma Save_height_taken_witness :
  snd (block.Save (block_of "h2" 1) "uuid-2" st_h1) <> None
  /\ fst (block.Save (block_of "h2" 1) "uuid-2" st_h1)
       !! block.GetBlockKeyPrefixHeight 1
     = st_h1 !! block.GetBlockKeyPrefixHeight 1
  /\ (forall b0,
        block.GetBlockByHeight st_h1 1 = (b0, None) ->
        block.GetBlockByHeight
          (fst (block.Save (block_of "h2" 1) "uuid-2" st_h1)) 1
        = (b0, None)).
Proof.
  apply (Save_height_taken (block_of "h2" 1) "uuid-2" st_h1 _ _).
  - exists (block.ItemString "h1"). vm_compute. reflexivity.
  - apply surjective_pairing.
Defined.

(** ** Strings *)

Section StringFacts.

Lemma length_append (a b : string) :
  String.length (String.append a b) = (String.length a + String.length b)%nat.
Proof. induction a as [|c a IH]; simpl; [reflexivity | now rewrite IH]. Qed.

Lemma append_inj_r (p a b : string) :
  String.append p a = String.append p b -> a = b.
Proof.
  induction p as [|c p IH]; simpl; [auto|].
  intros E. inversion E. auto.
Qed.

Lemma append_String (x : ascii) (a b : string) :
  String.append (String x a) b = String x (String.append a b).
Proof. reflexivity. Qed.

Lemma append_assoc (a b c : string) :
  String.append (String.append a b) c = String.append a (String.append b c).
Proof.
  induction a as [|x a IH]; [reflexivity|].
  rewrite !append_String. f_equal. exact IH.
Qed.

Lemma prefix_append (p s : string) : String.prefix p (String.append p s) = true.
Proof.
  apply String.prefix_correct.
  induction p as [|c p IH]; simpl.
  - destruct s; reflexivity.
  - now rewrite IH.
Qed.

Lemma compare_refl (s : string) : String.compare s s = Eq.
Proof.
  induction s as [|c s IH]; simpl; [reflexivity|].
  unfold Ascii.compare. now rewrite N.compare_refl.
Qed.

Lemma length_substring (n m : nat) (s : string) :
  (n + m <= String.length s)%nat ->
  String.length (String.substring n m s) = m.
Proof.
  revert n m. induction s as [|c s IH]; intros n m H; simpl in *.
  - destruct n, m; simpl; lia.
  - destruct n as [|n].
    + destruct m as [|m]; simpl; [reflexivity|].
      rewrite (IH 0%nat m) by lia. reflexivity.
    + apply IH. lia.
Qed.

Lemma length_zeros (n : nat) (s : string) :
  String.length (fmt.zeros n s) = (n + String.length s)%nat.
Proof. induction n as [|n IH]; simpl; [reflexivity | now rewrite IH]. Qed.

Lemma length_fixed (w : nat) (u : Z) (t : string) :
  String.length (fmt.fixed w u t) = (w + String.length t)%nat.
Proof.
  revert u t. induction w as [|w IH]; intros u t; [reflexivity|].
  rewrite fixed_S, IH. simpl. lia.
Qed.

(** [%d] writes different numbers differently. *)
Lemma fmtInteger_inj (u1 u2 : Z) :
  0 <= u1 < 10 ^ 20 -> 0 <= u2 < 10 ^ 20 ->
  fmt.fmtInteger 20 u1 "" = fmt.fmtInteger 20 u2 "" -> u1 = u2.
Proof.
  intros H1 H2 E.
  destruct (fmtInteger_fixed 19 u1 "" H1) as (d1 & _ & L1 & Z1).
  destruct (fmtInteger_fixed 19 u2 "" H2) as (d2 & _ & L2 & Z2).
  assert (d1 = d2).
  { rewrite E in L1. rewrite L1 in L2. simpl in L2. lia. }
  subst d2. rewrite E in Z1. rewrite Z1 in Z2.
  pose proof (fixed_compare 20 u1 u2 "" "" H1 H2) as C.
  rewrite Z2, compare_refl in C.
  destruct (Z.compare_spec u1 u2); congruence.
Qed.

End StringFacts.

(** ** More on the height keys *)

Section HeightKeyFacts.
Import block.

(** X4: below 10^20, that is for every 64-bit height, the height key has
    the length of the prefix plus twenty-one, and two different heights
    never share a key. *)
Theorem GetBlockKeyPrefixHeight_inj (h1 h2 : Z) :
  0 <= h1 < 10 ^ 20 -> 0 <= h2 < 10 ^ 20 ->
  String.length (GetBlockKeyPrefixHeight h1)
  = (String.length BlockPrefixHeight + 21)%nat
  /\ (GetBlockKeyPrefixHeight h1 = GetBlockKeyPrefixHeight h2 -> h1 = h2).
Proof.
  intros H1 H2. unfold GetBlockKeyPrefixHeight, maxBlockHeightStringLength.
  rewrite !Sprintf_0d_fixed by lia. rewrite !fixed_append.
  change (String.append "" "-") with "-". split.
  - rewrite length_append, length_fixed. reflexivity.
  - intros E. apply append_inj_r in E.
    pose proof (fixed_compare 20 h1 h2 "-" "-" H1 H2) as C.
    rewrite E, compare_refl in C.
    destruct (Z.compare_spec h1 h2); congruence.
Qed.

End HeightKeyFacts.

Lemma GetBlockKeyPrefixHeight_inj_witness :
  String.length (block.GetBlockKeyPrefixHeight 18446744073709551615)
  = (String.length block.BlockPrefixHeight + 21)%nat
  /\ (block.GetBlockKeyPrefixHeight 18446744073709551615
      = block.GetBlockKeyPrefixHeight 1844674407370955161 ->
      18446744073709551615 = 1844674407370955161).
Proof.
  apply (GetBlockKeyPrefixHeight_inj 18446744073709551615 1844674407370955161);
    lia.
Defined.

(** ** The latest block and the genesis block *)

Section LatestSavedFacts.
Import block.

Lemma GetIterator_nonempty {V : Type} (st : gmap string V) (p : string)
  (options : storage.ListOptions) (k : string) (v : V) :
  st !! k = Some v -> String.prefix p k = true ->
  storage.GetIterator st p options <> [].
Proof.
  intros Hk Hp. unfold storage.GetIterator.
  assert (Hs : In (k, v)
            (storage.sort_by_key
               (List.filter (storage.has_prefix p) (map_to_list st)))).
  { apply In_sort_by_key, filter_In. split; [|exact Hp].
    now apply list_elem_of_In, elem_of_map_to_list. }
  set (sorted := storage.sort_by_key _) in *.
  assert (Ho : In (k, v)
                 (if storage.Reverse options then rev sorted else sorted)).
  { destruct (storage.Reverse options); [now apply in_rev in Hs | exact Hs]. }
  destruct (if storage.Reverse options then rev sorted else sorted)
    as [|x l]; [destruct Ho|].
  destruct (storage.Limit options); discriminate.
Qed.

Lemma prefix_confirmed_block_key (hash : string) :
  String.prefix BlockPrefixConfirmed (GetBlockKey hash) = false.
Proof. reflexivity. Qed.

Lemma prefix_confirmed_height_key (height : Z) :
  String.prefix BlockPrefixConfirmed (GetBlockKeyPrefixHeight height) = false.
Proof. reflexivity. Qed.

Lemma prefix_confirmed_confirmed_key (b : Block) (uuid : string) :
  String.prefix BlockPrefixConfirmed (NewBlockKeyConfirmed b uuid) = true.
Proof.
  unfold NewBlockKeyConfirmed, GetBlockKeyPrefixConfirmed.
  rewrite append_assoc. apply prefix_append.
Qed.

(** X5: a block that [GetLatestBlock] hands back without an error is a
    block of the storage: some record under the confirmed prefix names
    the hash key it is stored under, and its hash is not empty. *)
Theorem GetLatestBlock_stored (st : gmap string Item) (b : Block) :
  GetLatestBlock st = (b, None) ->
  Hash b <> ""
  /\ exists k v,
       String.prefix BlockPrefixConfirmed k = true
       /\ st !! k = Some v
       /\ st !! GetBlockKey (hash_of_item (Some v)) = Some (ItemBlock b).
Proof.
  intros E. split; [eapply GetLatestBlock_found, E|].
  revert E. unfold GetLatestBlock, GetBlocksByConfirmed.
  destruct (storage.GetIterator st BlockPrefixConfirmed
              (storage.NewDefaultListOptions true 1))
    as [|item rest] eqn:Ei; [discriminate|].
  destruct (GetIterator_items st BlockPrefixConfirmed
              (storage.NewDefaultListOptions true 1) item)
    as (v & Hv & Hst & Hp).
  { rewrite Ei. now left. }
  unfold LoadBlocksInsideIterator, GetBlock, storage.Get. rewrite Hv.
  destruct (st !! GetBlockKey (hash_of_item (Some v))) as [i|] eqn:Hb;
    [destruct i as [b'| | |]|]; try discriminate.
  destruct (String.eqb (Hash b') ""); intros E; inversion E. subst.
  exists (storage.Key item), v. auto.
Qed.

(** X6: the first block saved is the latest one: on a storage without a
    record under the confirmed prefix, after a save without an error of
    a block with a hash, [GetLatestBlock] hands back that block. *)
Theorem Save_then_GetLatestBlock (b : Block) (uuid : string)
  (st st' : gmap string Item) :
  (forall k, String.prefix BlockPrefixConfirmed k = true -> st !! k = None) ->
  Hash b <> "" ->
  Save b uuid st = (st', None) ->
  GetLatestBlock st' = (b, None).
Proof.
  intros Hnone Hh E.
  destruct (Save_ok_GetBlock b uuid st st' E) as (_ & Hg).
  apply Save_ok_shape in E as (_ & Hbc & Hbh & Hch & Est).
  assert (Hc : st' !! NewBlockKeyConfirmed b uuid = Some (ItemString (Hash b))).
  { rewrite Est, lookup_insert_ne by congruence. apply lookup_insert_eq. }
  assert (Honly : forall k v,
            String.prefix BlockPrefixConfirmed k = true ->
            st' !! k = Some v -> v = ItemString (Hash b)).
  { intros k v Hp Hk. rewrite Est in Hk.
    destruct (decide (GetBlockKeyPrefixHeight (Height (BlockHeader b)) = k))
      as [<-|N1].
    { rewrite prefix_confirmed_height_key in Hp. discriminate. }
    rewrite lookup_insert_ne in Hk by exact N1.
    destruct (decide (NewBlockKeyConfirmed b uuid = k)) as [<-|N2].
    { rewrite lookup_insert_eq in Hk. congruence. }
    rewrite lookup_insert_ne in Hk by exact N2.
    destruct (decide (GetBlockKey (Hash b) = k)) as [<-|N3].
    { rewrite prefix_confirmed_block_key in Hp. discriminate. }
    rewrite lookup_insert_ne in Hk by exact N3.
    rewrite (Hnone k Hp) in Hk. discriminate. }
  unfold GetLatestBlock, GetBlocksByConfirmed.
  destruct (storage.GetIterator st' BlockPrefixConfirmed
              (storage.NewDefaultListOptions true 1))
    as [|item rest] eqn:Ei.
  { exfalso. eapply GetIterator_nonempty;
      [exact Hc | apply prefix_confirmed_confirmed_key | exact Ei]. }
  destruct (GetIterator_items st' BlockPrefixConfirmed
              (storage.NewDefaultListOptions true 1) item)
    as (v & Hv & Hst & Hp).
  { rewrite Ei. now left. }
  rewrite (Honly _ _ Hp Hst) in Hv.
  unfold LoadBlocksInsideIterator. rewrite Hv. simpl hash_of_item.
  rewrite Hg. apply String.eqb_neq in Hh. now rewrite Hh.
Qed.

(** X7: the genesis block is what the comment on [MakeGenesisBlock]
    says: whenever there is no block of height 1 yet, the block handed
    back has an empty proposer, the empty round, the genesis confirmed
    time and one transaction, whether the writes succeed or not. *)
Theorem MakeGenesisBlock_shape `{Collaborators} (st : gmap string Item)
  (account : BlockAccount) (networkID uuid : string) :
  st !! GetBlockKeyPrefixHeight 1 = None ->
  let blk := fst (snd (MakeGenesisBlock st account networkID uuid)) in
  Proposer blk = ""
  /\ BlockRound blk = Round0
  /\ Confirmed blk = common.GenesisBlockConfirmedTime
  /\ length (Transactions blk) = 1%nat.
Proof.
  intros Hn. unfold MakeGenesisBlock, ExistsBlockByHeight.
  rewrite Has_spec, Hn.
  rewrite bool_decide_eq_false_2 by (intros [x Hx]; discriminate).
  destruct (Save _ uuid st) as [st1 [e|]].
  - simpl. auto.
  - destruct (BlockTransaction_Save _ st1) as [st2 e2]. simpl. auto.
Qed.

End LatestSavedFacts.

Lemma GetLatestBlock_h1 :
  block.GetLatestBlock st_h1 = (block_of "h1" 1, None).
Proof. vm_compute. reflexivity. Qed.

Lemma Save_then_GetLatestBlock_witness :
  block.GetLatestBlock st_h1 = (block_of "h1" 1, None).
Proof.
  apply (Save_then_GetLatestBlock (block_of "h1" 1) "uuid-1" ∅ st_h1).
  - intros k _. apply lookup_empty.
  - discriminate.
  - exact Save_h1_ok.
Defined.

Lemma GetLatestBlock_stored_witness :
  block.Hash (block_of "h1" 1) <> ""
  /\ exists k v,
       String.prefix block.BlockPrefixConfirmed k = true
       /\ st_h1 !! k = Some v
       /\ st_h1 !! block.GetBlockKey (block.hash_of_item (Some v))
          = Some (block.ItemBlock (block_of "h1" 1)).
Proof.
  apply (GetLatestBlock_stored st_h1 (block_of "h1" 1)).
  exact GetLatestBlock_h1.
Defined.

Lemma MakeGenesisBlock_shape_witness :
  let blk :=
    fst (snd (@block.MakeGenesisBlock collaborators_a ∅ bas "net" "uuid-1")) in
  block.Proposer blk = ""
  /\ block.BlockRound blk = block.Round0
  /\ block.Confirmed blk = common.GenesisBlockConfirmedTime
  /\ length (block.Transactions blk) = 1%nat.
Proof.
  apply (@MakeGenesisBlock_shape collaborators_a ∅ bas "net" "uuid-1").
  apply lookup_empty.
Defined.

(** ** More on payment operations *)

Section PaymentRangeFacts.
Import common transaction.
Variable keypair_Parse : string -> option Error.

(** X8: over the whole range of an [Amount], a payment is well formed
    exactly when its target parses and its amount is from 1 to 2^63 - 1;
    an error of the parser comes first and is handed on as it is, also
    for an amount that would be refused; with a target that parses, the
    amount 0 and the amounts from 2^63 up get
    [OperationAmountUnderflow]. *)
Theorem OperationBodyPayment_IsWellFormed_uint64 (o : OperationBodyPayment)
  (networkID : string) :
  is_uint64 (Amount o) ->
  (OperationBodyPayment_IsWellFormed keypair_Parse o networkID = None
   <-> keypair_Parse (Target o) = None /\ 1 <= Amount o < 2 ^ 63)
  /\ (forall e, keypair_Parse (Target o) = Some e ->
        OperationBodyPayment_IsWellFormed keypair_Parse o networkID = Some e)
  /\ (keypair_Parse (Target o) = None ->
      (OperationBodyPayment_IsWellFormed keypair_Parse o networkID
       = Some ErrorOperationAmountUnderflow
       <-> Amount o = 0 \/ 2 ^ 63 <= Amount o)).
Proof.
  unfold is_uint64, uint64_max. intros Hu.
  unfold OperationBodyPayment_IsWellFormed.
  destruct (Z.lt_ge_cases (Amount o) (2 ^ 63)) as [Hs|Hl].
  - rewrite int64_small by lia.
    destruct (keypair_Parse (Target o)) as [e|];
      destruct (Z.ltb_spec (Amount o) 1);
      repeat split; intros; try discriminate; try congruence; try lia;
      intuition (try discriminate; try congruence; try lia).
  - rewrite int64_large by lia.
    destruct (keypair_Parse (Target o)) as [e|];
      destruct (Z.ltb_spec (Amount o - 2 ^ 64) 1);
      repeat split; intros; try discriminate; try congruence; try lia;
      intuition (try discriminate; try congruence; try lia).
Qed.

End PaymentRangeFacts.

Lemma OperationBodyPayment_IsWellFormed_uint64_witness :
  transaction.OperationBodyPayment_IsWellFormed
    (fun t => if String.eqb t kpt then None else Some (ErrorExternal "parse"))
    (transaction.NewOperationBodyPayment "nobody" 0) ""
  = Some (ErrorExternal "parse").
Proof.
  apply (proj1 (proj2 (OperationBodyPayment_IsWellFormed_uint64
           (fun t => if String.eqb t kpt then None
                     else Some (ErrorExternal "parse"))
           (transaction.NewOperationBodyPayment "nobody" 0) ""
           ltac:(unfold common.is_uint64, common.uint64_max; simpl; lia)))).
  reflexivity.
Defined.

(** ** More on the local node *)

Section RegistryFacts.
Import node.

Lemma HasValidators_add_validator (n : LocalNode) (va : Validator)
  (a : string) :
  HasValidators (add_validator n va) a = true
  <-> HasValidators n a = true \/ (a <> Address n /\ v_address va = a).
Proof.
  unfold HasValidators, add_validator.
  destruct (String.eqb_spec (Address n) (v_address va)) as [He|Hne].
  - split; [auto|]. intros [H|[H1 H2]]; [exact H | congruence].
  - simpl. destruct (decide (v_address va = a)) as [<-|Hd].
    + rewrite lookup_insert_eq.
      split; [intros _; right; split; congruence|].
      intros _. apply bool_decide_eq_true_2. eauto.
    + rewrite lookup_insert_ne by exact Hd.
      split; [auto|]. intros [H|[_ H]]; [exact H | contradiction].
Qed.

(** X9: after [AddValidators] an address is registered exactly when it
    was registered before or is the address, other than the node's own,
    of one of the validators given; nothing is ever taken out of the
    registry. *)
Theorem AddValidators_HasValidators (vs : list Validator) (n : LocalNode)
  (a : string) :
  HasValidators (fst (AddValidators n vs)) a = true
  <-> HasValidators n a = true
      \/ (a <> Address n /\ exists v, In v vs /\ v_address v = a).
Proof.
  unfold AddValidators. simpl. revert n.
  induction vs as [|va vs IH]; intros n; simpl.
  - split; [auto|]. intros [H|(_ & v & [] & _)]. exact H.
  - rewrite IH, add_validator_Address, HasValidators_add_validator.
    split.
    + intros [[H|[H1 H2]]|(H1 & v & Hv & H2)]; eauto 7.
    + intros [H|(H1 & v & [->|Hv] & H2)]; eauto 7.
Qed.

Lemma add_validator_lookup (n : LocalNode) (va : Validator) (a : string) :
  validators (add_validator n va) !! a
  = add_validator_at (Address n) a (validators n !! a) va.
Proof.
  unfold add_validator, add_validator_at.
  destruct (String.eqb_spec (Address n) (v_address va)); [reflexivity|].
  simpl. destruct (String.eqb_spec (v_address va) a) as [<-|Hne].
  - apply lookup_insert_eq.
  - now apply lookup_insert_ne.
Qed.

Lemma AddValidators_lookup (vs : list Validator) (n : LocalNode)
  (a : string) :
  validators (fold_left add_validator vs n) !! a
  = fold_left (add_validator_at (Address n) a) vs (validators n !! a).
Proof.
  revert n. induction vs as [|va vs IH]; intros n; simpl; [reflexivity|].
  now rewrite IH, add_validator_Address, add_validator_lookup.
Qed.

Lemma add_validator_at_fold (self a : string) (vs : list Validator) :
  (forall x, fold_left (add_validator_at self a) vs x = x)
  \/ (exists v, forall x, fold_left (add_validator_at self a) vs x = Some v).
Proof.
  induction vs as [|va vs IH]; simpl; [now left|].
  destruct IH as [Hid|[v Hc]]; [|right; exists v; intros x; apply Hc].
  unfold add_validator_at at 2 4.
  destruct (String.eqb self (v_address va)).
  - left. intros x. apply Hid.
  - destruct (String.eqb (v_address va) a).
    + right. exists va. intros x. apply Hid.
    + left. intros x. apply Hid.
Qed.

Lemma add_validator_fields (vs : list Validator) (n : LocalNode) :
  keypair (fold_left add_validator vs n) = keypair n
  /\ state (fold_left add_validator vs n) = state n
  /\ alias (fold_left add_validator vs n) = alias n
  /\ bindEndpoint (fold_left add_validator vs n) = bindEndpoint n
  /\ publishEndpoint (fold_left add_validator vs n) = publishEndpoint n.
Proof.
  revert n. induction vs as [|va vs IH]; intros n; simpl; [auto|].
  destruct (IH (add_validator n va)) as (-> & -> & -> & -> & ->).
  unfold add_validator. destruct (String.eqb _ _); auto.
Qed.

Lemma LocalNode_eq (n1 n2 : LocalNode) :
  keypair n1 = keypair n2 -> state n1 = state n2 -> alias n1 = alias n2 ->
  bindEndpoint n1 = bindEndpoint n2 ->
  publishEndpoint n1 = publishEndpoint n2 ->
  validators n1 = validators n2 -> n1 = n2.
Proof. destruct n1, n2. simpl. intros; subst. reflexivity. Qed.

(** X10: [AddValidators] twice with the same validators is
    [AddValidators] once: the second call changes nothing. *)
Theorem AddValidators_twice (vs : list Validator) (n : LocalNode) :
  fst (AddValidators (fst (AddValidators n vs)) vs) = fst (AddValidators n vs).
Proof.
  unfold AddValidators. simpl.
  destruct (add_validator_fields vs n) as (K & S & A & B & P).
  destruct (add_validator_fields vs (fold_left add_validator vs n))
    as (K' & S' & A' & B' & P').
  apply LocalNode_eq; try congruence.
  apply map_eq. intros a.
  rewrite (AddValidators_lookup vs (fold_left add_validator vs n)).
  rewrite (AddValidators_lookup vs n).
  assert (Haddr : Address (fold_left add_validator vs n) = Address n)
    by (unfold Address; now rewrite K).
  rewrite Haddr.
  destruct (add_validator_at_fold (Address n) a vs) as [Hid|[v Hc]].
  - now rewrite !Hid.
  - now rewrite !Hc.
Qed.

(** X11: the last validator given for an address is the one registered:
    a validator that is not the node itself and is followed by no other
    validator of its address is what the registry holds under that
    address after [AddValidators], whatever was there before. *)
Theorem AddValidators_last_wins (n : LocalNode) (vs1 vs2 : list Validator)
  (v : Validator) :
  v_address v <> Address n ->
  (forall w, In w vs2 -> v_address w <> v_address v) ->
  GetValidators (fst (AddValidators n (vs1 ++ v :: vs2)%list)) !! v_address v
  = Some v.
Proof.
  intros Hself Hlater. unfold GetValidators, AddValidators. simpl.
  rewrite AddValidators_lookup, fold_left_app. simpl.
  set (x := fold_left _ vs1 _). clearbody x.
  assert (Hv : add_validator_at (Address n) (v_address v) x v = Some v).
  { unfold add_validator_at.
    destruct (String.eqb_spec (Address n) (v_address v)); [congruence|].
    now rewrite String.eqb_refl. }
  rewrite Hv. clear Hv x.
  induction vs2 as [|w vs2 IH]; simpl; [reflexivity|].
  assert (Hw : add_validator_at (Address n) (v_address v) (Some v) w = Some v).
  { unfold add_validator_at. destruct (String.eqb _ _); [reflexivity|].
    destruct (String.eqb_spec (v_address w) (v_address v)) as [E|_];
      [|reflexivity].
    exfalso. eapply Hlater; [now left | exact E]. }
  rewrite Hw. apply IH. intros w' Hw'. apply Hlater. now right.
Qed.

Lemma MakeAlias_cases (address : string) :
  (MakeAlias address = None <-> (String.length address < 8)%nat)
  /\ (forall s, MakeAlias address = Some s -> String.length s = 9%nat).
Proof.
  unfold MakeAlias.
  destruct (Nat.ltb_spec (String.length address) 8) as [Hlt|Hge].
  - split; [tauto | discriminate].
  - split; [split; [discriminate | lia]|].
    intros s E. inversion E.
    rewrite !length_append, !length_substring by lia. reflexivity.
Qed.

(** X12: [MakeAlias] panics exactly on an address shorter than eight
    bytes; every alias it makes is nine bytes long, the first four bytes
    of the address, a dot, and four of its last eight. *)
Theorem MakeAlias_length (address : string) :
  (MakeAlias address = None <-> (String.length address < 8)%nat)
  /\ (forall s, MakeAlias address = Some s ->
        String.length s = 9%nat
        /\ String.substring 0 4 s = String.substring 0 4 address
        /\ String.get 4 s = Some "."%char).
Proof.
  destruct (MakeAlias_cases address) as [Hn Hl].
  split; [exact Hn|]. intros s E. split; [now apply Hl|].
  revert E. unfold MakeAlias.
  destruct (Nat.ltb_spec (String.length address) 8) as [Hlt|Hge];
    [discriminate|].
  intros E. inversion E. clear E.
  destruct address as [|c1 [|c2 [|c3 [|c4 rest]]]]; simpl in Hge; try lia.
  destruct rest; split; reflexivity.
Qed.

(** X13: [NewLocalNode] fails exactly when no alias is given and the
    address is too short to make one; the node it makes has a non-empty
    alias, the given one when there is one, the state NONE and an empty
    registry. *)
Theorem NewLocalNode_alias (kp : Keypair) (e : Endpoint) (a : string) :
  (NewLocalNode kp e a = None
   <-> a = "" /\ (String.length (kp_Address kp) < 8)%nat)
  /\ (forall n, NewLocalNode kp e a = Some n ->
        alias n <> ""
        /\ (a <> "" -> alias n = a)
        /\ state n = StateNONE
        /\ GetValidators n = ∅
        /\ Address n = kp_Address kp).
Proof.
  unfold NewLocalNode.
  destruct (MakeAlias_cases (kp_Address kp)) as [Hnone Hlen].
  destruct a as [|c a]; simpl.
  - destruct (MakeAlias (kp_Address kp)) as [s|] eqn:E; simpl.
    + split; [split; [discriminate|]|].
      * intros [_ H]. apply Hnone in H. discriminate.
      * intros n En. inversion En. subst. simpl.
        repeat split; try congruence.
        intros ->. specialize (Hlen _ eq_refl). discriminate.
    + split; [|discriminate]. split; [|reflexivity].
      intros _. split; [reflexivity | now apply Hnone].
  - split; [split; [discriminate | intros [H _]; discriminate]|].
    intros n En. inversion En. subst. simpl.
    repeat split; congruence.
Qed.

End RegistryFacts.

Lemma AddValidators_last_wins_witness :
  node.GetValidators
    (fst (node.AddValidators node_a
            ([validator_self]
             ++ node.NewValidator (node.v_address validator_b) endpoint_a "old"
             :: [validator_b])%list))
    !! node.v_address validator_b
  = Some validator_b.
Proof.
  apply (AddValidators_last_wins node_a
           [validator_self;
            node.NewValidator (node.v_address validator_b) endpoint_a "old"]
           [] validator_b).
  - discriminate.
  - intros w [].
Defined.

(** ** The connection manager *)

Section ManagerFacts.
Import node network.
Variable GetClient : Endpoint -> option NetworkClient.

Lemma GetConnection_frame (c c' : ValidatorConnectionManager)
  (address : string) (r : option NetworkClient) :
  GetConnection GetClient c address = (c', r) ->
  localNode c' = localNode c
  /\ validators c' = validators c
  /\ connected c' = connected c
  /\ (forall a cl, clients c !! a = Some cl -> clients c' !! a = Some cl).
Proof.
  unfold GetConnection.
  destruct (clients c !! address) as [cl|] eqn:Hc.
  { intros E. inversion E. subst. auto. }
  destruct (validators c !! address) as [v|].
  2: { intros E. inversion E. subst. auto. }
  destruct (GetClient (v_endpoint v)) as [cl|].
  2: { intros E. inversion E. subst. auto. }
  intros E. inversion E. subst. simpl. repeat split.
  intros a cl' Ha. rewrite lookup_insert_ne; [exact Ha | congruence].
Qed.

(** X15: a client is handed out only for an address that has a memoised
    client or is a registered validator, and it is memoised from then on;
    a nil answer leaves the manager as it is. *)
Theorem GetConnection_known (c c' : ValidatorConnectionManager)
  (address : string) (r : option NetworkClient) :
  GetConnection GetClient c address = (c', r) ->
  (r = None -> c' = c)
  /\ (forall cl, r = Some cl ->
        clients c' !! address = Some cl
        /\ (is_Some (clients c !! address)
            \/ is_Some (validators c !! address))).
Proof.
  unfold GetConnection.
  destruct (clients c !! address) as [cl|] eqn:Hcl.
  { intros E. inversion E. subst. split; [discriminate|].
    intros cl' E'. inversion E'. subst. eauto. }
  destruct (validators c !! address) as [v|] eqn:Hva.
  2: { intros E. inversion E. subst. split; [reflexivity | discriminate]. }
  destruct (GetClient (v_endpoint v)) as [cl|] eqn:Hg.
  2: { intros E. inversion E. subst. split; [reflexivity | discriminate]. }
  intros E. inversion E. subst. split; [discriminate|].
  intros cl' E'. inversion E'. subst. simpl.
  rewrite lookup_insert_eq. eauto.
Qed.

(** X16: [setConnected] answers true exactly when the mark of the
    validator was not already the one given (no mark yet, or the other
    one); the mark is then the one given, and the same call again
    answers false and changes nothing. *)
Theorem setConnected_changed (c : ValidatorConnectionManager) (v : Validator)
  (b : bool) :
  (snd (setConnected c v b) = true <-> connected c !! v_address v <> Some b)
  /\ connected (fst (setConnected c v b)) !! v_address v = Some b
  /\ setConnected (fst (setConnected c v b)) v b
     = (fst (setConnected c v b), false).
Proof.
  unfold setConnected. simpl. split; [|split].
  - destruct (connected c !! v_address v) as [[|]|]; destruct b; simpl;
      split; congruence.
  - apply lookup_insert_eq.
  - rewrite lookup_insert_eq, insert_insert_eq.
    destruct b; reflexivity.
Qed.

Lemma filter_length_perm {A : Type} (f : A -> bool) (l l' : list A) :
  Permutation l l' ->
  length (List.filter f l) = length (List.filter f l').
Proof.
  induction 1 as [|x l l' _ IH|x y l|l l' l'' _ IH1 _ IH2]; simpl.
  - reflexivity.
  - destruct (f x); simpl; now rewrite IH.
  - destruct (f x), (f y); reflexivity.
  - congruence.
Qed.

Lemma count_insert_fresh (m : gmap string bool) (k : string) (b : bool) :
  m !! k = None ->
  length (List.filter snd (map_to_list (<[k := b]> m)))
  = ((if b then 1 else 0) + length (List.filter snd (map_to_list m)))%nat.
Proof.
  intros Hk.
  rewrite (filter_length_perm snd _ _ (map_to_list_insert m k b Hk)).
  simpl. destruct b; reflexivity.
Qed.

Lemma count_delete (m : gmap string bool) (k : string) (x : bool) :
  m !! k = Some x ->
  length (List.filter snd (map_to_list m))
  = ((if x then 1 else 0)
     + length (List.filter snd (map_to_list (delete k m))))%nat.
Proof.
  intros Hk.
  rewrite <- (filter_length_perm snd _ _ (map_to_list_delete m k x Hk)).
  simpl. destruct x; reflexivity.
Qed.

(** X17: [setConnected] moves the number of connected validators by the
    one validator: after the call the count is the old one, less one if
    the validator was marked connected, plus one if it is marked
    connected now. *)
Theorem setConnected_count (c : ValidatorConnectionManager) (v : Validator)
  (b : bool) :
  (CountConnected (fst (setConnected c v b))
   + (match connected c !! v_address v with Some true => 1 | _ => 0 end)
   = CountConnected c + (if b then 1 else 0))%nat.
Proof.
  unfold CountConnected, countConnectedUnlocked, setConnected. simpl.
  destruct (connected c !! v_address v) as [x|] eqn:Hk.
  - rewrite <- insert_delete_eq.
    rewrite count_insert_fresh by apply lookup_delete_eq.
    rewrite (count_delete _ _ _ Hk). destruct x, b; lia.
  - rewrite count_insert_fresh by exact Hk. destruct b; lia.
Qed.

Lemma NoDup_map_fst_filter {A B : Type} (f : A * B -> bool)
  (l : list (A * B)) :
  List.NoDup (List.map fst l) -> List.NoDup (List.map fst (List.filter f l)).
Proof.
  induction l as [|x l IH]; simpl; [auto|].
  intros Hnd. inversion Hnd as [|? ? Hx Hl]. subst.
  destruct (f x); simpl; [|auto].
  constructor; [|auto].
  intros Hin. apply Hx. apply in_map_iff in Hin as (y & Hy & Hin).
  apply filter_In in Hin as [Hin _]. apply in_map_iff. eauto.
Qed.

(** X18: [AllConnected] lists exactly the addresses marked connected,
    each once, and [CountConnected] is the length of that list. *)
Theorem AllConnected_spec (c : ValidatorConnectionManager) :
  (forall a, In a (AllConnected c) <-> connected c !! a = Some true)
  /\ List.NoDup (AllConnected c)
  /\ length (AllConnected c) = CountConnected c.
Proof.
  unfold AllConnected, CountConnected, countConnectedUnlocked.
  split; [|split].
  - intros a. rewrite in_map_iff. split.
    + intros ([a' b] & <- & Hin). apply filter_In in Hin as [Hin Hb].
      simpl in *. subst b.
      now apply list_elem_of_In, elem_of_map_to_list in Hin.
    + intros Ha. exists (a, true). split; [reflexivity|].
      apply filter_In. split; [|reflexivity].
      now apply list_elem_of_In, elem_of_map_to_list.
  - apply NoDup_map_fst_filter.
    apply NoDup_ListNoDup. exact (NoDup_fst_map_to_list (connected c)).
  - apply length_map.
Qed.

Lemma send_frame (message : Message) (c c' : ValidatorConnectionManager)
  (v : option Validator) (o : Outcome) :
  send GetClient message c v = (c', o) ->
  localNode c' = localNode c
  /\ validators c' = validators c
  /\ connected c' = connected c
  /\ (forall a cl, clients c !! a = Some cl -> clients c' !! a = Some cl).
Proof.
  unfold send. destruct v as [v|].
  2: { intros E. inversion E. subst. auto. }
  destruct (GetConnection GetClient c (v_address v)) as [c1 r] eqn:E1.
  apply GetConnection_frame in E1.
  destruct (String.eqb (GetType message) common.BallotMessage).
  { destruct r; intros E; inversion E; subst; exact E1. }
  destruct (String.eqb (GetType message) common.TransactionMessage).
  { destruct r; intros E; inversion E; subst; exact E1. }
  intros E. inversion E. subst. exact E1.
Qed.

Lemma broadcast_loop_frame (message : Message)
  (entries : list (string * bool)) (c c' : ValidatorConnectionManager)
  (os : list Outcome) :
  broadcast_loop GetClient message c entries = (c', os) ->
  localNode c' = localNode c
  /\ validators c' = validators c
  /\ connected c' = connected c
  /\ (forall a cl, clients c !! a = Some cl -> clients c' !! a = Some cl)
  /\ length os = length (List.filter snd entries).
Proof.
  revert c c' os. induction entries as [|[a b] rest IH]; intros c c' os; simpl.
  - intros E. inversion E. subst. auto.
  - destruct b; simpl; [|apply IH].
    destruct (send GetClient message c (validators c !! a)) as [c1 o] eqn:E1.
    apply send_frame in E1 as (L1 & V1 & C1 & K1).
    destruct (broadcast_loop GetClient message c1 rest) as [c2 os2] eqn:E2.
    apply IH in E2 as (L2 & V2 & C2 & K2 & Hlen).
    intros E. inversion E. subst. simpl.
    repeat split; try congruence. auto.
Qed.

(** X19: whatever the message and whatever the goroutines end in,
    [Broadcast] starts one send for each validator marked connected, and
    leaves the validators, the connected marks and every client it had
    as they were. *)
Theorem Broadcast_frame (c c' : ValidatorConnectionManager)
  (message : Message) (os : list Outcome) :
  Broadcast GetClient c message = (c', os) ->
  length os = CountConnected c
  /\ validators c' = validators c
  /\ connected c' = connected c
  /\ (forall a cl, clients c !! a = Some cl -> clients c' !! a = Some cl).
Proof.
  unfold Broadcast. intros E.
  apply broadcast_loop_frame in E as (_ & V & C & K & Hlen). auto.
Qed.

(** X20: with no validator marked connected [Broadcast] sends nothing
    and changes nothing, whatever the type of the message. *)
Theorem Broadcast_none_connected (c : ValidatorConnectionManager)
  (message : Message) :
  CountConnected c = 0%nat ->
  Broadcast GetClient c message = (c, []).
Proof.
  unfold CountConnected, countConnectedUnlocked, Broadcast.
  generalize (map_to_list (connected c)) as entries.
  induction entries as [|[a b] rest IH]; simpl; [reflexivity|].
  destruct b; simpl; [discriminate | exact IH].
Qed.

(** X21: [AllValidators] lists the registered addresses and the node's
    own address, and nothing else; it is one longer than the registry. *)
Theorem AllValidators_spec (c : ValidatorConnectionManager) :
  (forall a, In a (AllValidators c)
             <-> is_Some (validators c !! a) \/ a = GetNodeAddress c)
  /\ length (AllValidators c) = S (size (validators c)).
Proof.
  unfold AllValidators, GetNodeAddress. split.
  - intros a. rewrite in_app_iff, in_map_iff. simpl. split.
    + intros [([a' v] & <- & Hin)|[ <- | [] ]]; [left | now right].
      apply list_elem_of_In, elem_of_map_to_list in Hin. simpl. eauto.
    + intros [[v Hv]| ->]; [left | right; now left].
      exists (a, v). split; [reflexivity|].
      now apply list_elem_of_In, elem_of_map_to_list.
  - rewrite length_app, length_map, length_map_to_list. simpl. lia.
Qed.

End ManagerFacts.

Lemma GetConnection_stored (GetClient : node.Endpoint -> option network.NetworkClient)
  (c c' : network.ValidatorConnectionManager) (address : string)
  (cl : network.NetworkClient) :
  network.GetConnection GetClient c address = (c', Some cl) ->
  network.clients c' !! address = Some cl.
Proof.
  unfold network.GetConnection.
  destruct (network.clients c !! address) as [cl0|] eqn:Hcl.
  { intros E. inversion E. subst. exact Hcl. }
  destruct (network.validators c !! address) as [v|]; [|discriminate].
  destruct (GetClient (node.v_endpoint v)) as [cl0|]; [|discriminate].
  intros E. inversion E. subst. simpl. apply lookup_insert_eq.
Qed.

Lemma GetConnection_of_stored
  (GetClient : node.Endpoint -> option network.NetworkClient)
  (c : network.ValidatorConnectionManager) (address : string)
  (cl : network.NetworkClient) :
  network.clients c !! address = Some cl ->
  network.GetConnection GetClient c address = (c, Some cl).
Proof. intros H. unfold network.GetConnection. now rewrite H. Qed.

(** X14: [GetConnection] memoises: once it has handed out a client for
    an address, every later call for that address hands out that very
    client and changes nothing, whatever the network would make then (a
    fresh client, another one, or none), also after calls for other
    addresses in between. *)
Theorem GetConnection_memo
  (GetClient : node.Endpoint -> option network.NetworkClient)
  (c c' : network.ValidatorConnectionManager) (address : string)
  (cl : network.NetworkClient) :
  network.GetConnection GetClient c address = (c', Some cl) ->
  (forall GetClient',
     network.GetConnection GetClient' c' address = (c', Some cl))
  /\ (forall GetClient' GetClient'' a c'' r,
        network.GetConnection GetClient' c' a = (c'', r) ->
        network.GetConnection GetClient'' c'' address = (c'', Some cl)).
Proof.
  intros E. apply GetConnection_stored in E. split.
  - intros G. now apply GetConnection_of_stored.
  - intros G G' a c'' r E'.
    apply GetConnection_frame in E' as (_ & _ & _ & K).
    apply GetConnection_of_stored. now apply K.
Qed.

Lemma GetConnection_memo_witness :
  network.GetConnection (fun _ => None)
    (fst (network.GetConnection GetClient_a manager_on
            (node.v_address validator_b)))
    (node.v_address validator_b)
  = (fst (network.GetConnection GetClient_a manager_on
            (node.v_address validator_b)),
     Some {| network.client_endpoint := endpoint_a |}).
Proof.
  apply (proj1 (GetConnection_memo GetClient_a manager_on
                  (fst (network.GetConnection GetClient_a manager_on
                          (node.v_address validator_b)))
                  (node.v_address validator_b)
                  {| network.client_endpoint := endpoint_a |}
                  ltac:(vm_compute; reflexivity))).
Defined.

Lemma GetConnection_known_witness :
  fst (network.GetConnection GetClient_a manager_on "GUNKNOWN") = manager_on.
Proof.
  apply (proj1 (GetConnection_known GetClient_a manager_on _ "GUNKNOWN" _
                  (surjective_pairing _))).
  vm_compute. reflexivity.
Defined.

Lemma Broadcast_frame_witness :
  length (snd (network.Broadcast GetClient_a manager_on (message_of "unknown")))
  = network.CountConnected manager_on.
Proof.
  apply (proj1 (Broadcast_frame GetClient_a manager_on _
                  (message_of "unknown") _ (surjective_pairing _))).
Defined.

Lemma Broadcast_none_connected_witness :
  network.Broadcast GetClient_a manager_off (message_of "ballot")
  = (manager_off, []).
Proof.
  apply (Broadcast_none_connected GetClient_a manager_off (message_of "ballot")).
  vm_compute. reflexivity.
Defined.

(** ** Problem documents and routes *)

Section ProblemFacts.
Import httputils.

(** X22: the problem document of a repository error carries the message
    as title and the status given; its type is never the default type,
    and two errors with different codes (of 64 bits) never get the same
    type. *)
Theorem NewErrorProblem_type (c1 c2 : Z) (m1 m2 : string) (s1 s2 : Z) :
  0 <= c1 < 2 ^ 64 -> 0 <= c2 < 2 ^ 64 ->
  (Type_ (NewErrorProblem (SebakError c1 m1) s1)
   = Type_ (NewErrorProblem (SebakError c2 m2) s2) -> c1 = c2)
  /\ Type_ (NewErrorProblem (SebakError c1 m1) s1) <> HttpProblemDefaultType
  /\ Title (NewErrorProblem (SebakError c1 m1) s1) = m1
  /\ Status (NewErrorProblem (SebakError c1 m1) s1) = s1.
Proof.
  intros H1 H2. unfold NewErrorProblem, SetStatus, NewProblem.
  cbn [Type_ Title Status]. split; [|split; [|auto]].
  - intros E. apply append_inj_r in E.
    apply fmtInteger_inj; [lia | lia | exact E].
  - unfold HttpProblemErrorTypePrefix, HttpProblemDefaultType.
    rewrite append_String. discriminate.
Qed.

End ProblemFacts.

Lemma NewErrorProblem_type_witness :
  (httputils.Type_ (httputils.NewErrorProblem
                      (httputils.SebakError 100 "does not exists") 404)
   = httputils.Type_ (httputils.NewErrorProblem
                        (httputils.SebakError 1000 "already exists") 400)
   -> 100 = 1000)
  /\ httputils.Type_ (httputils.NewErrorProblem
                        (httputils.SebakError 100 "does not exists") 404)
     <> httputils.HttpProblemDefaultType
  /\ httputils.Title (httputils.NewErrorProblem
                        (httputils.SebakError 100 "does not exists") 404)
     = "does not exists"
  /\ httputils.Status (httputils.NewErrorProblem
                         (httputils.SebakError 100 "does not exists") 404)
     = 404.
Proof.
  apply (NewErrorProblem_type 100 1000 "does not exists" "already exists"
           404 400); lia.
Defined.

(** The type of a problem is the prefix and the code in decimal. *)
Example NewErrorProblem_100 :
  httputils.Type_ (httputils.NewErrorProblem
                     (httputils.SebakError 100 "does not exists") 404)
  = "https://boscoin.io/sebak/error/100".
Proof. reflexivity. Qed.

(** A pattern under [/node], one under [/api], one under neither, and
    one that only starts with the letters of [/node]: the test is on the
    string, so it goes to the node router with what is left of it. *)
Example AddHandler_routes :
  network.AddHandler "/node/ballot" = (network.SubRouter "node", "/ballot")
  /\ network.AddHandler "/api/account" = (network.SubRouter "api", "/account")
  /\ network.AddHandler "/metrics" = (network.BaseRouter, "/metrics")
  /\ network.AddHandler "/nodeinfo" = (network.SubRouter "node", "info").
Proof. repeat split. Qed.

(** ** Who a broadcast goes to *)

Section RecipientFacts.
Import node network.
Variable GetClient : Endpoint -> option NetworkClient.

Lemma send_recipient (message : Message) (c : ValidatorConnectionManager)
  (v : Validator) :
  available GetClient c (v_address v) ->
  exists c' cl,
    send GetClient message c (Some v) = (c', dispatch message cl)
    /\ clients c' !! v_address v = Some cl
    /\ validators c' = validators c
    /\ (forall a, available GetClient c a -> available GetClient c' a).
Proof.
  intros Hav.
  destruct (GetConnection_available GetClient c (v_address v) Hav)
    as (c' & cl & E & Hv & Hmono).
  exists c', cl. split; [|split; [|auto]].
  - unfold send, dispatch. rewrite E.
    destruct (String.eqb (GetType message) common.BallotMessage);
      [reflexivity|].
    destruct (String.eqb (GetType message) common.TransactionMessage);
      reflexivity.
  - eapply GetConnection_stored, E.
Qed.

Lemma broadcast_loop_recipients (message : Message)
  (entries : list (string * bool)) (c c' : ValidatorConnectionManager)
  (os : list Outcome) :
  (forall addr, In (addr, true) entries ->
     exists v, validators c !! addr = Some v
               /\ available GetClient c (v_address v)) ->
  broadcast_loop GetClient message c entries = (c', os) ->
  Forall2
    (fun a o =>
       exists v cl,
         validators c !! a = Some v
         /\ clients c' !! v_address v = Some cl
         /\ o = dispatch message cl)
    (List.map fst (List.filter snd entries)) os.
Proof.
  revert c c' os. induction entries as [|[a b] rest IH]; intros c c' os Hk.
  - simpl. intros E. inversion E. constructor.
  - simpl. destruct b; simpl.
    + destruct (Hk a (or_introl eq_refl)) as (v & Hv & Hav).
      rewrite Hv.
      destruct (send_recipient message c v Hav)
        as (c1 & cl & E1 & Hcl & Hv1 & Hmono).
      rewrite E1.
      destruct (broadcast_loop GetClient message c1 rest) as [c2 os2] eqn:E2.
      intros E. inversion E. subst c' os. clear E.
      constructor.
      * exists v, cl. split; [exact Hv|]. split; [|reflexivity].
        apply (broadcast_loop_frame GetClient) in E2 as (_ & _ & _ & K & _).
        now apply K.
      * assert (IH' := IH c1 c2 os2). rewrite Hv1 in IH'. apply IH'.
        -- intros a' Ha'. destruct (Hk a' (or_intror Ha')) as (v' & Hv' & Hav').
           exists v'. auto.
        -- exact E2.
    + apply IH. intros a' Ha'. apply Hk. now right.
Qed.

(** X25: in a manager whose connected addresses are registered
    validators with a client to be had, a broadcast reaches every
    connected validator through its own client: for the addresses of
    [AllConnected], one after the other, a ballot ends in [SendBallot]
    and a transaction in [SendMessage] on the client the manager holds
    for that validator afterwards; with any other type every goroutine
    started panics with the invalid-message panic. *)
Theorem Broadcast_recipients (c c' : ValidatorConnectionManager)
  (message : Message) (os : list Outcome) :
  connected_known GetClient c ->
  Broadcast GetClient c message = (c', os) ->
  (GetType message = common.BallotMessage ->
   Forall2
     (fun a o =>
        exists v cl,
          validators c !! a = Some v
          /\ clients c' !! v_address v = Some cl
          /\ o = SendBallot cl message)
     (AllConnected c) os)
  /\ (GetType message = common.TransactionMessage ->
      Forall2
        (fun a o =>
           exists v cl,
             validators c !! a = Some v
             /\ clients c' !! v_address v = Some cl
             /\ o = SendMessage cl message)
        (AllConnected c) os)
  /\ (GetType message <> common.BallotMessage ->
      GetType message <> common.TransactionMessage ->
      length os = CountConnected c
      /\ Forall (fun o => o = Panic "invalid message") os).
Proof.
  intros Hk E. unfold Broadcast in E.
  assert (HR := broadcast_loop_recipients message _ c c' os
                  (fun a Ha => Hk a (proj1 (elem_of_map_to_list _ _ _)
                                       (proj2 (list_elem_of_In _ _) Ha))) E).
  fold (AllConnected c) in HR.
  split; [|split].
  - intros Hb. eapply Forall2_impl; [exact HR|].
    intros a o (v & cl & Hv & Hcl & ->). exists v, cl.
    unfold dispatch. now rewrite Hb, String.eqb_refl.
  - intros Ht. eapply Forall2_impl; [exact HR|].
    intros a o (v & cl & Hv & Hcl & ->). exists v, cl.
    unfold dispatch. rewrite Ht. auto.
  - intros Nb Nt. split.
    + apply (broadcast_loop_frame GetClient) in E as (_ & _ & _ & _ & Hlen).
      exact Hlen.
    + apply String.eqb_neq in Nb, Nt.
      clear E. induction HR as [|a o l os' (v & cl & _ & _ & ->) _ IH];
        constructor; [|exact IH].
      unfold dispatch. now rewrite Nb, Nt.
Qed.

End RecipientFacts.

Lemma Broadcast_recipients_witness :
  Forall2
    (fun a o =>
       exists v cl,
         network.validators manager_on !! a = Some v
         /\ network.clients
              (fst (network.Broadcast GetClient_a manager_on
                      (message_of "ballot")))
            !! node.v_address v = Some cl
         /\ o = network.SendBallot cl (message_of "ballot"))
    (network.AllConnected manager_on)
    (snd (network.Broadcast GetClient_a manager_on (message_of "ballot"))).
Proof.
  apply (proj1 (Broadcast_recipients GetClient_a manager_on _
                  (message_of "ballot") _ manager_on_known
                  (surjective_pairing _))).
  reflexivity.
Defined.
